(** * Recentrifuge, [recentrifuge/generic.py]

    A shallow embedding of the [GenericFormat] constructor and of
    [read_generic_output], and the properties of the specification proved
    (or refuted) on it.

    Conventions of the embedding.

    - Python [str] values are Rocq strings; the text is taken to be ASCII
      (the whitespace of [str.strip] and [str.split] and the digits accepted
      by [int] are the ASCII part of the Unicode classes Python uses).
    - Python [int] is [Z].  A Python [float] is idealised as an exact
      rational [Q]: rounding, overflow and NaN are not modelled.  [shel] is an [int] at run
      time ([Score] is a [NewType], the identity), and Python compares an
      [int] with a [float] exactly.
    - A [dict] is a [gmap]; [collections.Counter] is a [gmap string Z] read
      with default 0.
    - Exceptions are values of [Exn]; a computation that can raise returns
      a sum.  What [print] writes to the console is a list of [Event]s.
    - The log string (first component of the returned tuple) is
      presentation only and is left out of the returned value, and with it
      the statements that format the statistics into it: a run of the model
      that returns stands for a run that reaches [return] provided these
      statements, the arithmetic on floats and the decoding of the file
      raise nothing. *)

From Stdlib Require Import Ascii String ZArith QArith Lia.
From stdpp Require Import base option list gmap strings sorting.

Local Open Scope string_scope.
Local Open Scope list_scope.
Local Open Scope Z_scope.

Set Default Proof Using "Type".

(** ** Python string primitives *)

Module Py.

(** [str.isspace] on one ASCII character: TAB, LF, VT, FF, CR,
    FS, GS, RS, US and SPACE. *)
Definition isspace (c : ascii) : bool :=
  let n := nat_of_ascii c in
  ((9 <=? n) && (n <=? 13) || (28 <=? n) && (n <=? 32))%nat.

Definition isdigit (c : ascii) : bool :=
  let n := nat_of_ascii c in ((48 <=? n) && (n <=? 57))%nat.

Definition digit_value (c : ascii) : Z := Z.of_nat (nat_of_ascii c) - 48.

Fixpoint lstrip (s : string) : string :=
  match s with
  | EmptyString => EmptyString
  | String c r => if isspace c then lstrip r else s
  end.

Fixpoint rstrip (s : string) : string :=
  match s with
  | EmptyString => EmptyString
  | String c r =>
      match rstrip r with
      | EmptyString => if isspace c then EmptyString else String c EmptyString
      | r' => String c r'
      end
  end.

(** [s.strip()] *)
Definition strip (s : string) : string := rstrip (lstrip s).

(** [s.split(sep)] for a one-character separator: never the empty list. *)
Fixpoint split (sep : ascii) (s : string) : list string :=
  match s with
  | EmptyString => [EmptyString]
  | String c r =>
      if Ascii.eqb c sep then EmptyString :: split sep r
      else match split sep r with
           | w :: ws => String c w :: ws
           | [] => [String c EmptyString]
           end
  end.

(** [s.split()]: the maximal runs of non-whitespace characters. *)
Fixpoint split_ws (s : string) : list string :=
  match s with
  | EmptyString => []
  | String c r =>
      if isspace c then split_ws r
      else match r with
           | EmptyString => [String c EmptyString]
           | String c' _ =>
               if isspace c' then String c EmptyString :: split_ws r
               else match split_ws r with
                    | w :: ws => String c w :: ws
                    | [] => [String c EmptyString]
                    end
           end
  end.

(** [l.remove(x)] inside [try ... except ValueError: pass]: the first
    occurrence goes, an absent [x] changes nothing. *)
Fixpoint remove (x : string) (l : list string) : list string :=
  match l with
  | [] => []
  | y :: r => if String.eqb y x then r else y :: remove x r
  end.

(** The digits of an [int] literal: single underscores are allowed
    between digits only. *)
Fixpoint digits (s : string) (acc : Z) (after_underscore : bool) : option Z :=
  match s with
  | EmptyString => if after_underscore then None else Some acc
  | String c r =>
      if isdigit c then digits r (10 * acc + digit_value c) false
      else if Ascii.eqb c "_" then
             if after_underscore then None else digits r acc true
      else None
  end.

Definition unsigned (s : string) : option Z :=
  match s with
  | EmptyString => None
  | String c _ => if isdigit c then digits s 0 false else None
  end.

(** The whitespace that [int] skips around a literal: TAB, LF, VT, FF, CR
    and SPACE.  The separators FS, GS, RS and US, which [str.strip] removes,
    are not skipped. *)
Definition int_space (c : ascii) : bool :=
  let n := nat_of_ascii c in
  ((9 <=? n) && (n <=? 13) || (n =? 32))%nat.

Fixpoint int_skip_left (s : string) : string :=
  match s with
  | EmptyString => EmptyString
  | String c r => if int_space c then int_skip_left r else s
  end.

Fixpoint int_skip_right (s : string) : string :=
  match s with
  | EmptyString => EmptyString
  | String c r =>
      match int_skip_right r with
      | EmptyString => if int_space c then EmptyString else String c EmptyString
      | r' => String c r'
      end
  end.

(** [int(s)] in base 10; [None] is [ValueError].  (The limit on the number
    of digits of recent interpreters is not modelled.) *)
Definition int (s : string) : option Z :=
  match int_skip_right (int_skip_left s) with
  | String "+" r => unsigned r
  | String "-" r => Z.opp <$> unsigned r
  | t => unsigned t
  end.

Definition upper_char (c : ascii) : ascii :=
  let n := nat_of_ascii c in
  if ((97 <=? n) && (n <=? 122))%nat then ascii_of_nat (n - 32) else c.

(** [s.upper()] *)
Fixpoint upper (s : string) : string :=
  match s with
  | EmptyString => EmptyString
  | String c r => String (upper_char c) (upper r)
  end.

(** [sum(map(int, l))]; [None] is the [ValueError] of the first element
    that is not an integer literal. *)
Fixpoint sum_ints (l : list string) : option Z :=
  match l with
  | [] => Some 0
  | x :: r =>
      match int x with
      | None => None
      | Some n => match sum_ints r with
                  | None => None
                  | Some m => Some (n + m)
                  end
      end
  end.


(** ['sep'.join(l)] *)
Fixpoint join (sep : string) (l : list string) : string :=
  match l with
  | [] => EmptyString
  | [x] => x
  | x :: r => x +:+ sep +:+ join sep r
  end.

Definition TAB : ascii := "009"%char.
Definition LF : ascii := "010"%char.

(** The lines a text file yields when it is iterated (or read with
    [readline]): each line keeps its terminating newline. *)
Fixpoint readlines (text : string) : list string :=
  match text with
  | EmptyString => []
  | String c r =>
      if Ascii.eqb c LF then String c EmptyString :: readlines r
      else match readlines r with
           | l :: ls => String c l :: ls
           | [] => [String c EmptyString]
           end
  end.

End Py.

(** ** Exceptions and console output *)

Inductive Exn : Type :=
| KeyError
| ValueError
| IndexError
| ZeroDivisionError
| StatisticsError
| FileNotFound            (* Exception: Cannot read "{output_file}" *)
| UnsupportedFileFormat   (* Exception('Unsupported file format. Aborting.') *)
| CannotReadAnySequence   (* Exception: Cannot read any sequence from ... *)
| NoSequencePassedFilter  (* Exception: No sequence passed the filter! *)
| UnsupportedScoring.     (* Exception('Unsupported scoring') *)

Inductive Event : Type :=
| FormatStringMalformed (specifier : string)
| OutputFormatNotSupported (header : list string)
| ErrorParsingLine (output_line : string)
| ErrorParsingElements (output_line : string)
| WarningTruncated
| ErrorUnsupportedScoring.

(** ** class GenericType(Enum) *)

Inductive GenericType : Type := CSV | TSV.

(** [str(t)], the member's name *)
Definition GenericType_str (t : GenericType) : string :=
  match t with CSV => "CSV" | TSV => "TSV" end.

(** [GenericType[name]]; [None] is [KeyError]. *)
Definition GenericType_getitem (name : string) : option GenericType :=
  if String.eqb name "CSV" then Some CSV
  else if String.eqb name "TSV" then Some TSV
  else None.

(** ** class GenericFormat *)

Module GenericFormat.

(** The attributes of the object; [None] is an attribute that was never
    assigned. *)
Record t : Type := Build {
  typ : option GenericType;
  tid : option Z;
  len : option Z;
  sco : option Z;
  unc : option string
}.

(** Every attribute of the descriptor is set. *)
Definition populated (self : t) : Prop :=
  is_Some (typ self) /\ is_Some (tid self) /\ is_Some (len self) /\
  is_Some (sco self) /\ is_Some (unc self).

(** The dict comprehension
    [{pair.split(':')[0].strip(): pair.split(':')[1].strip() for pair in blocks}]:
    a block without a colon has no [[1]]. *)
Fixpoint parse_pairs (blocks : list string) (fmt : gmap string string)
  : Exn + gmap string string :=
  match blocks with
  | [] => inr fmt
  | pair_ :: rest =>
      match Py.split ":" pair_ with
      | k :: v :: _ => parse_pairs rest (<[Py.strip k := Py.strip v]> fmt)
      | _ => inl IndexError
      end
  end.

(** One [try: int(fmt[key]) except KeyError: ... raise  except ValueError: ... raise]. *)
Definition column (fmt : gmap string string) (key missing malformed : string)
  : list Event * (Exn + Z) :=
  match fmt !! key with
  | None => ([FormatStringMalformed missing], inl KeyError)
  | Some v =>
      match Py.int v with
      | None => ([FormatStringMalformed malformed], inl ValueError)
      | Some n => ([], inr n)
      end
  end.

(** [GenericFormat.__init__(self, format)]: what is printed, and either the
    exception that leaves the constructor or the object built. *)
Definition init (format : string) : list Event * (Exn + t) :=
  let blocks := Py.strip <$> Py.split "," format in
  match parse_pairs blocks ∅ with
  | inl e => ([], inl e)
  | inr fmt =>
  match fmt !! "TYP" with
  | None => ([FormatStringMalformed "TYPe field is mandatory."], inl KeyError)
  | Some typ_name =>
  let '(out0, self_typ) :=
    match GenericType_getitem (Py.upper typ_name) with
    | Some ty => ([], Some ty)
    | None =>
        (* the handler prints and does not raise *)
        ([FormatStringMalformed
            ("Unknown file TYPe, valid options are " +:+
             Py.join " or " (GenericType_str <$> [CSV; TSV]))], None)
    end in
  match column fmt "TID" "TaxID field is mandatory."
               "TaxID field is an integer number of column." with
  | (out1, inl e) => (out0 ++ out1, inl e)
  | (out1, inr self_tid) =>
  match column fmt "LEN" "LENgth field is mandatory."
               "LENgth field is an integer number of column." with
  | (out2, inl e) => (out0 ++ out1 ++ out2, inl e)
  | (out2, inr self_len) =>
  match column fmt "SCO" "SCOre field is mandatory."
               "SCOre field is an integer number of column." with
  | (out3, inl e) => (out0 ++ out1 ++ out2 ++ out3, inl e)
  | (out3, inr self_sco) =>
  match fmt !! "UNC" with
  | None =>
      (out0 ++ out1 ++ out2 ++ out3 ++
       [FormatStringMalformed "UNClassified field is mandatory."], inl KeyError)
  | Some self_unc =>
      (out0 ++ out1 ++ out2 ++ out3,
       inr (Build self_typ (Some self_tid) (Some self_len) (Some self_sco)
                  (Some self_unc)))
  end end end end end end.

End GenericFormat.

(** ** Collaborators of [read_generic_output] *)

(** Modelled from the spec: the enumeration [Scoring] of
    [recentrifuge.config] is not among the sources.  The five policies the
    function dispatches on, and [OTHER] for any further member. *)
Inductive Scoring : Type := SHEL | KRAKEN | LENGTH | LOGLENGTH | NORMA | OTHER.

Module SampleStats.

(** Modelled from the spec: the class [SampleStats] of [recentrifuge.stats]
    is not among the sources.  The snapshot is represented by the keyword
    arguments its constructor receives. *)
Record t : Type := Build {
  minscore : option Q;
  nt_read : Z;
  lens : gmap string (list Z);
  scores : gmap string (list Z);
  scores2 : gmap string (list Q);
  seq_read : Z;
  seq_unclas : Z;
  seq_filt : Z
}.

End SampleStats.

(** [x < y] on numbers *)
Definition Qlt_bool (x y : Q) : bool :=
  (Qnum x * QDen y <? Qnum y * QDen x)%Z.

Definition Qsum (l : list Q) : Q := foldr Qplus 0%Q l.

Definition Zsum (l : list Z) : Z := foldr Z.add 0 l.

(** [statistics.mean(data)]: the exact sum over the number of items;
    [StatisticsError] on no data. *)
Definition mean (data : list Q) : Exn + Q :=
  match data with
  | [] => inl StatisticsError
  | _ => inr (Qsum data / inject_Z (Z.of_nat (length data)))%Q
  end.

(** [collections.Counter]: reading a missing key gives 0 and stores
    nothing. *)
Definition Counter_get (c : gmap string Z) (k : string) : Z := default 0 (c !! k).

(** [sum(c.values())] *)
Definition Counter_total (c : gmap string Z) : Z :=
  map_fold (fun _ v acc => v + acc) 0 c.

(** [try: d[tid].append(x)  except KeyError: d[tid] = [x, ]] *)
Definition append_or_create {A : Type} (d : gmap string (list A)) (tid : string) (x : A)
  : gmap string (list A) :=
  match d !! tid with
  | Some l => <[tid := l ++ [x]]> d
  | None => <[tid := [x]]> d
  end.

(** [sum([len(l) for l in d.values()])] *)
Definition total_length {A : Type} (d : gmap string (list A)) : Z :=
  map_fold (fun _ (l : list A) acc => Z.of_nat (length l) + acc) 0 d.

(** A dict comprehension [{k: f(k, d[k]) for k in d}] whose body can raise:
    the comprehension raises when [f] raises for some key.  (When [f]
    raises for several keys the exception reported is that of the first key
    in the order of the map, not of the insertion order of the dict.) *)
Definition comprehension {A B : Type} (f : string -> A -> Exn + B) (d : gmap string A)
  : Exn + gmap string B :=
  match omap (fun kv => match f kv.1 kv.2 with inl e => Some e | inr _ => None end)
             (map_to_list d) with
  | e :: _ => inl e
  | [] => inr (map_imap (fun k v => match f k v with inr b => Some b | inl _ => None end) d)
  end.

(** The local variables of [read_generic_output] that live across the
    lines of the file, and what has been printed so far. *)
Record ScanState : Type := MkScan {
  all_scores : gmap string (list Z);
  all_kmerel : gmap string (list Q);
  all_length : gmap string (list Z);
  num_read : Z;
  nt_read : Z;
  num_uncl : Z;
  error_read : Z;
  console : list Event
}.

Definition initial : ScanState :=
  MkScan ∅ ∅ ∅ 0 0 0 (-1) [].

(** How one pass through the body of the [for] loop ends: by reaching the
    next iteration (with [continue] or at the end of the body), or with an
    exception that no handler of the function catches. *)
Inductive Flow : Type :=
| Next (st : ScanState)
| Raise (e : Exn) (st : ScanState).

(** [print(yellow('Error'), ...); error_read = num_read + 1; continue] *)
Definition ignore_line (ev : Event) (st : ScanState) : ScanState :=
  MkScan (all_scores st) (all_kmerel st) (all_length st)
         (num_read st) (nt_read st) (num_uncl st)
         (num_read st + 1) (console st ++ [ev]).

(** [num_read += 1; nt_read += length] *)
Definition count_read (length : Z) (st : ScanState) : ScanState :=
  MkScan (all_scores st) (all_kmerel st) (all_length st)
         (num_read st + 1) (nt_read st + length) (num_uncl st)
         (error_read st) (console st).

(** [num_uncl += 1] *)
Definition count_unclassified (st : ScanState) : ScanState :=
  MkScan (all_scores st) (all_kmerel st) (all_length st)
         (num_read st) (nt_read st) (num_uncl st + 1)
         (error_read st) (console st).

(** The three [try: ... append ... except KeyError: ...] statements that
    end the body of the loop. *)
Definition accumulate (tid : string) (shel : Z) (score : Q) (length : Z)
  (st : ScanState) : ScanState :=
  MkScan (append_or_create (all_scores st) tid shel)
         (append_or_create (all_kmerel st) tid score)
         (append_or_create (all_length st) tid length)
         (num_read st) (nt_read st) (num_uncl st)
         (error_read st) (console st).

(** [for pair in maps: couple = pair.split(':');
     mappings[Id(couple[0])] += int(couple[1])] *)
Fixpoint count_kmers (maps : list string) (mappings : gmap string Z)
  : Exn + gmap string Z :=
  match maps with
  | [] => inr mappings
  | pair_ :: rest =>
      match Py.split ":" pair_ with
      | k :: v :: _ =>
          match Py.int v with
          | Some n => count_kmers rest (<[k := Counter_get mappings k + n]> mappings)
          | None => inl ValueError
          end
      | _ => inl IndexError
      end
  end.

Section ReadGenericOutput.

(** The names the function reads from the enclosing scope and that the file
    does not define: [UNCLASSIFIED], [K_MER_SIZE] and [scoring]. *)
Variable UNCLASSIFIED : string.
Variable K_MER_SIZE : Z.
Variable scoring : Scoring.

(** [if minscore is not None: if scoring is Scoring.KRAKEN: score < minscore
     else: shel < minscore]: the read is ignored. *)
Definition low_score (minscore : option Q) (shel : Z) (score : Q) : bool :=
  match minscore with
  | None => false
  | Some m =>
      match scoring with
      | KRAKEN => Qlt_bool score m
      | _ => Qlt_bool (inject_Z shel) m
      end
  end.

(** The body of [for raw_line in file]. *)
Definition loop_body (minscore : option Q) (st : ScanState) (raw_line : string) : Flow :=
  let output_line := Py.strip raw_line in
  match Py.split Py.TAB output_line with
  | [_clas; _label; _tid; _length; _maps] =>
      match Py.sum_ints (Py.split "|" _length) with
      | None => Next (ignore_line (ErrorParsingElements output_line) st)
      | Some length =>
          let st := count_read length st in
          if String.eqb _clas UNCLASSIFIED then Next (count_unclassified st)
          else
            let tid := _tid in
            let maps := Py.remove "|:|" (Py.split_ws _maps) in
            match count_kmers maps ∅ with
            | inl ValueError =>
                Next (ignore_line (ErrorParsingElements output_line) st)
            | inl e => Raise e st
            | inr mappings =>
                let shel := Counter_get mappings tid + K_MER_SIZE in
                if Counter_total mappings =? 0 then Raise ZeroDivisionError st
                else
                  let score :=
                    (inject_Z (Counter_get mappings tid)
                     / inject_Z (Counter_total mappings) * 100)%Q in
                  if low_score minscore shel score then Next st
                  else Next (accumulate tid shel score length st)
            end
      end
  | _ => Next (ignore_line (ErrorParsingLine output_line) st)
  end.

(** [for raw_line in file: ...] *)
Fixpoint scan (minscore : option Q) (lines : list string) (st : ScanState) : Flow :=
  match lines with
  | [] => Next st
  | raw_line :: rest =>
      match loop_body minscore st raw_line with
      | Next st' => scan minscore rest st'
      | Raise e st' => Raise e st'
      end
  end.

(** [sum([len(scores) for scores in all_scores.values()])] *)
Definition filt_seqs (st : ScanState) : Z := total_length (all_scores st).

(** [mean] of a list of [int]s *)
Definition mean_int (data : list Z) : Exn + Q := mean (inject_Z <$> data).

Section Summary.

(** [math.log10] on the positive numbers, a parameter of the model. *)
Variable log10 : Q -> Q.

(** [math.log10(x)]: [ValueError] (math domain error) unless [0 < x]. *)
Definition math_log10 (x : Q) : Exn + Q :=
  if Qlt_bool 0 x then inr (log10 x) else inl ValueError.

(** The selection of the output scores; an unsupported policy also prints. *)
Definition select_scores (st : ScanState) : list Event * (Exn + gmap string Q) :=
  match scoring with
  | SHEL => ([], comprehension (fun _ l => mean_int l) (all_scores st))
  | KRAKEN => ([], comprehension (fun _ l => mean l) (all_kmerel st))
  | LENGTH => ([], comprehension (fun _ l => mean_int l) (all_length st))
  | LOGLENGTH =>
      ([], comprehension
             (fun _ l => match mean_int l with
                         | inl e => inl e
                         | inr m => math_log10 m
                         end) (all_length st))
  | NORMA =>
      ([], match comprehension (fun _ l => mean_int l) (all_scores st) with
           | inl e => inl e
           | inr scores =>
           match comprehension (fun _ l => mean_int l) (all_length st) with
           | inl e => inl e
           | inr lengths =>
               comprehension
                 (fun tid (s : Q) =>
                    match lengths !! tid with
                    | None => inl KeyError
                    | Some l =>
                        if Qeq_bool l 0 then inl ZeroDivisionError
                        else inr (s / l * 100)%Q
                    end) scores
           end end)
  | OTHER => ([ErrorUnsupportedScoring], inl UnsupportedScoring)
  end.

(** What the function returns (without the log string): the statistics,
    the counter of reads per taxon and the scores. *)
Definition Output : Type := SampleStats.t * gmap string Z * gmap string Q.

(** The statements after the [with] block. *)
Definition summarize (minscore : option Q) (st : ScanState)
  : list Event * (Exn + Output) :=
  let out :=
    if error_read st =? num_read st + 1
    then console st ++ [WarningTruncated] else console st in
  let counts : gmap string Z := (fun l => Z.of_nat (length l)) <$> all_scores st in
  if num_read st =? 0 then (out, inl CannotReadAnySequence)
  else if filt_seqs st =? 0 then (out, inl NoSequencePassedFilter)
  else
    let stat :=
      SampleStats.Build minscore (nt_read st) (all_length st) (all_scores st)
                        (all_kmerel st) (num_read st) (num_uncl st) (filt_seqs st) in
    match select_scores st with
    | (evs, inl e) => (out ++ evs, inl e)
    | (evs, inr out_scores) => (out ++ evs, inr (stat, counts, out_scores))
    end.

(** [read_generic_output(output_file, format, minscore)].  The file is
    given by the lines it yields, [None] when it cannot be opened
    ([FileNotFoundError]); [readline] at the end of the file returns the
    empty string. *)
Definition read_generic_output (file : option (list string)) (minscore : option Q)
  : list Event * (Exn + Output) :=
  match file with
  | None => ([], inl FileNotFound)
  | Some lines =>
      let header := Py.split Py.TAB (hd "" lines) in
      if negb (length header =? 5)%nat
      then ([OutputFormatNotSupported header], inl UnsupportedFileFormat)
      else
        match scan minscore (tl lines) initial with
        | Raise e st => (console st, inl e)
        | Next st => summarize minscore st
        end
  end.

End Summary.


(** ** The record parser and the accumulator, separately

    The body of the loop is a function of the line alone up to the
    threshold test.  [Verdict] names the ways it can end, [parse] computes
    the one a line takes and [deliver] applies it to the state;
    [loop_body_parse] below shows that this is the same body. *)

Inductive Verdict : Type :=
| Malformed (output_line : string)          (* first handler: not 5 fields *)
| BadLength (output_line : string)          (* second handler, read not counted *)
| BadMappings (output_line : string) (length : Z) (* second handler, read counted *)
| Unclassified (length : Z)
| Uncaught (e : Exn) (length : Z)           (* no handler: the scan is over *)
| Derived (length : Z) (tid : string) (shel : Z) (score : Q).

Definition parse (raw_line : string) : Verdict :=
  let output_line := Py.strip raw_line in
  match Py.split Py.TAB output_line with
  | [_clas; _label; _tid; _length; _maps] =>
      match Py.sum_ints (Py.split "|" _length) with
      | None => BadLength output_line
      | Some length =>
          if String.eqb _clas UNCLASSIFIED then Unclassified length
          else
            match count_kmers (Py.remove "|:|" (Py.split_ws _maps)) ∅ with
            | inl ValueError => BadMappings output_line length
            | inl e => Uncaught e length
            | inr mappings =>
                if Counter_total mappings =? 0 then Uncaught ZeroDivisionError length
                else Derived length _tid (Counter_get mappings _tid + K_MER_SIZE)
                       (inject_Z (Counter_get mappings _tid)
                        / inject_Z (Counter_total mappings) * 100)%Q
            end
      end
  | _ => Malformed output_line
  end.

Definition deliver (minscore : option Q) (v : Verdict) (st : ScanState) : Flow :=
  match v with
  | Malformed output_line => Next (ignore_line (ErrorParsingLine output_line) st)
  | BadLength output_line => Next (ignore_line (ErrorParsingElements output_line) st)
  | BadMappings output_line length =>
      Next (ignore_line (ErrorParsingElements output_line) (count_read length st))
  | Unclassified length => Next (count_unclassified (count_read length st))
  | Uncaught e length => Raise e (count_read length st)
  | Derived length tid shel score =>
      if low_score minscore shel score then Next (count_read length st)
      else Next (accumulate tid shel score length (count_read length st))
  end.

(** The line ends in one of the two [except ValueError] handlers. *)
Definition rejected (v : Verdict) : bool :=
  match v with
  | Malformed _ | BadLength _ | BadMappings _ _ => true
  | _ => false
  end.

(** The line raises an exception that the function does not handle. *)
Definition fatal (v : Verdict) : bool :=
  match v with Uncaught _ _ => true | _ => false end.

(** ** Notions of the specification *)

(** The k-mer mappings of a record as the data model has them: the ordered
    sequence of (taxon id, k-mer count) pairs, repeated ids allowed.
    [None] when a token has no colon or its count is not an integer. *)
Fixpoint kmer_pairs (maps : list string) : option (list (string * Z)) :=
  match maps with
  | [] => Some []
  | token :: rest =>
      match Py.split ":" token with
      | k :: v :: _ =>
          match Py.int v, kmer_pairs rest with
          | Some n, Some ps => Some ((k, n) :: ps)
          | _, _ => None
          end
      | _ => None
      end
  end.

(** The k-mer count mapped to one taxon, repeated pairs summed. *)
Definition kmers_of (tid : string) (pairs : list (string * Z)) : Z :=
  Zsum (snd <$> filter (fun p => p.1 = tid) pairs).

(** The total k-mer count across all mappings. *)
Definition kmers_total (pairs : list (string * Z)) : Z := Zsum (snd <$> pairs).

(** The line is the record of a classified read with this taxon id, this
    total length and these k-mer mappings. *)
Definition classified_record (raw_line tid : string) (length : Z)
  (pairs : list (string * Z)) : Prop :=
  exists clas label len maps,
    Py.split Py.TAB (Py.strip raw_line) = [clas; label; tid; len; maps] /\
    clas <> UNCLASSIFIED /\
    Py.sum_ints (Py.split "|" len) = Some length /\
    kmer_pairs (Py.remove "|:|" (Py.split_ws maps)) = Some pairs.

(** The metric the threshold is compared with: [relativeScore] under the
    KRAKEN policy, [shel] under every other one. *)
Definition metric (shel : Z) (score : Q) : Q :=
  match scoring with KRAKEN => score | _ => inject_Z shel end.

(** A record is retained iff no threshold is configured or its metric is
    at least the threshold. *)
Definition retained_by (minscore : option Q) (shel : Z) (score : Q) : Prop :=
  match minscore with
  | None => True
  | Some T => (T <= metric shel score)%Q
  end.

(** A retained read: what it contributes to the three lists of its taxon. *)
Record Read : Type := MkRead {
  read_tid : string;
  read_shel : Z;
  read_score : Q;
  read_length : Z
}.

Definition retained_read (minscore : option Q) (raw_line : string) : option Read :=
  match parse raw_line with
  | Derived length tid shel score =>
      match minscore with
      | None => Some (MkRead tid shel score length)
      | Some T =>
          if Qle_bool T (metric shel score)
          then Some (MkRead tid shel score length) else None
      end
  | _ => None
  end.

(** The retained reads of a sequence of data lines, in arrival order. *)
Definition retained (minscore : option Q) (lines : list string) : list Read :=
  omap (retained_read minscore) lines.

(** The retained reads of one taxon. *)
Definition of_taxon (tid : string) (reads : list Read) : list Read :=
  filter (fun r => read_tid r = tid) reads.

(** The arithmetic mean of the specification. *)
Definition Qmean (l : list Q) : Q := (Qsum l / inject_Z (Z.of_nat (length l)))%Q.

(** A per-taxon list after more values arrive: absent as long as nothing
    arrived. *)
Definition extended {A : Type} (old : option (list A)) (new : list A) : option (list A) :=
  match old, new with
  | None, [] => None
  | _, _ => Some (default [] old ++ new)
  end.

(** The three lists of every taxon have the same length (and a taxon is a
    key of all three dicts or of none). *)
Definition parallel (st : ScanState) : Prop :=
  forall tid : string,
    length <$> (all_scores st !! tid) = length <$> (all_kmerel st !! tid) /\
    length <$> (all_scores st !! tid) = length <$> (all_length st !! tid).

(** The states the scan goes through: the initial one, and the one each
    pass through the body of the loop leaves, exception or not. *)
Inductive reachable (minscore : option Q) : ScanState -> Prop :=
| reachable_initial : reachable minscore initial
| reachable_next st raw_line st' :
    reachable minscore st -> loop_body minscore st raw_line = Next st' ->
    reachable minscore st'
| reachable_raise st raw_line e st' :
    reachable minscore st -> loop_body minscore st raw_line = Raise e st' ->
    reachable minscore st'.

(** One more entry, the same key, in each of the three dicts. *)
Definition one_entry_each (st st' : ScanState) : Prop :=
  exists tid shel score length,
    all_scores st' = append_or_create (all_scores st) tid shel /\
    all_kmerel st' = append_or_create (all_kmerel st) tid score /\
    all_length st' = append_or_create (all_length st) tid length.

Definition untouched (st st' : ScanState) : Prop :=
  all_scores st' = all_scores st /\ all_kmerel st' = all_kmerel st /\
  all_length st' = all_length st.

(** The truncated-file warning is among what was printed. *)
Definition warns (run : list Event * (Exn + Output)) : Prop :=
  WarningTruncated ∈ run.1.

(** ** Example inputs *)

Definition row (fields : list string) : string :=
  Py.join (String Py.TAB EmptyString) fields +:+ String Py.LF EmptyString.

Definition example_header : string := row ["C"; "label"; "taxid"; "length"; "maps"].

(** The line of an unclassified read, the last of its file (no newline). *)
Definition unclassified_line : string :=
  Py.join (String Py.TAB EmptyString) ["U"; "r1"; "0"; "100"; "0:50"].

(** Two reads of taxon 9606 all of whose k-mers map to it: 45 k-mers, and
    85 k-mers either side of the mate separator, for lengths 100 and 50|50. *)
Definition read_a : string := row ["C"; "r1"; "9606"; "100"; "9606:45"].
Definition read_b : string := row ["C"; "r2"; "9606"; "50|50"; "9606:80 |:| 9606:5"].

(** A read assigned to a taxon that none of its k-mers maps to. *)
Definition read_absent : string := row ["C"; "r3"; "562"; "75"; "9606:10 0:5"].

(** A read with a negative k-mer count. *)
Definition read_negative : string := row ["C"; "r4"; "1"; "100"; "1:5 2:-3"].

(** A classified read whose k-mer counts sum to zero. *)
Definition read_zero : string := row ["C"; "r5"; "9606"; "100"; "9606:0"].

(** A line cut after its third field. *)
Definition cut_line : string :=
  Py.join (String Py.TAB EmptyString) ["C"; "r6"; "96"].

(** ** Further notions about the lines and the counters *)

(** The length of the read of a line that counts as a read: the line has 5
    fields and its length field is a sum of integers. *)
Definition line_length (raw_line : string) : option Z :=
  match Py.split Py.TAB (Py.strip raw_line) with
  | [_; _; _; _length; _] => Py.sum_ints (Py.split "|" _length)
  | _ => None
  end.

(** The line counts as an unclassified read: it counts as a read and its
    first field is [UNCLASSIFIED]. *)
Definition line_unclassified (raw_line : string) : bool :=
  match Py.split Py.TAB (Py.strip raw_line) with
  | [_clas; _; _; _length; _] =>
      match Py.sum_ints (Py.split "|" _length) with
      | Some _ => String.eqb _clas UNCLASSIFIED
      | None => false
      end
  | _ => false
  end.

(** Two states that differ at most in the error marker and in what was
    printed. *)
Definition same_data (st1 st2 : ScanState) : Prop :=
  all_scores st1 = all_scores st2 /\ all_kmerel st1 = all_kmerel st2 /\
  all_length st1 = all_length st2 /\ num_read st1 = num_read st2 /\
  nt_read st1 = nt_read st2 /\ num_uncl st1 = num_uncl st2.

(** The value of a retained read that the policies SHEL, KRAKEN and LENGTH
    average. *)
Definition policy_value (r : Read) : Q :=
  match scoring with
  | KRAKEN => read_score r
  | LENGTH => inject_Z (read_length r)
  | _ => inject_Z (read_shel r)
  end.

(** Every character of the string is a whitespace character. *)
Definition blank (s : string) : Prop :=
  Forall (fun c => Py.isspace c = true) (list_ascii_of_string s).

(** The character does not occur in the string. *)
Definition without (c : ascii) (s : string) : Prop :=
  Forall (fun c' => Ascii.eqb c' c = false) (list_ascii_of_string s).

(** ** select_kraken_inputs *)

(** [s.startswith(prefix)] *)
Fixpoint startswith (s prefix : string) : bool :=
  match prefix, s with
  | EmptyString, _ => true
  | String a p, String b r => Ascii.eqb a b && startswith r p
  | String _ _, EmptyString => false
  end.

(** [s.endswith(suffix)] *)
Fixpoint endswith (s suffix : string) : bool :=
  String.eqb s suffix ||
  match s with
  | EmptyString => false
  | String _ r => endswith r suffix
  end.

(** [os.path.join(a, b)] of [posixpath] *)
Definition os_path_join (a b : string) : string :=
  if startswith b "/" then b
  else if String.eqb a "" || endswith a "/" then a +:+ b
  else a +:+ "/" +:+ b.

(** The order of [str]: by character codes, a proper prefix first. *)
Definition str_le (a b : string) : Prop := Is_true (String.leb a b).

(** [l.sort()] on strings: the order is total and antisymmetric, so the
    sorted list does not depend on the algorithm. *)
Definition sort (l : list string) : list string :=
  merge_sort (fun a b => Is_true (String.leb a b)) l.

(** The body of the loop over the directory entries: the names that are
    selected, as the paths that are appended. *)
Fixpoint select_entries (dir_name ext : string) (names : list string) : list string :=
  match names with
  | [] => []
  | name :: rest =>
      if negb (startswith name ".") && endswith name ext then
        (if negb (String.eqb dir_name ".") then os_path_join dir_name name else name)
        :: select_entries dir_name ext rest
      else select_entries dir_name ext rest
  end.

(** How a call of [select_kraken_inputs] ends, with the contents of the
    caller's list [krakens] at that point. *)
Inductive Selection : Type :=
| Selected (krakens : list string)       (* returns; [krakens] is also printed *)
| NoDirectory                            (* [krakens[0]]: IndexError, the list is empty *)
| ScandirFailed (krakens : list string). (* [os.scandir] raised [OSError] *)

(** [select_kraken_inputs(krakens, ext)].  [scandir] gives the names of the
    entries of a directory in the order the system yields them, [None]
    when the directory cannot be scanned. *)
Definition select_kraken_inputs (scandir : string -> option (list string))
  (krakens : list string) (ext : string) : Selection :=
  match krakens with
  | [] => NoDirectory
  | dir_name :: _ =>
      let krakens := [] in
      match scandir dir_name with
      | None => ScandirFailed krakens
      | Some names => Selected (sort (krakens ++ select_entries dir_name ext names))
      end
  end.

(** ** Further example inputs *)

(** A classified read of length 0. *)
Definition read_empty : string := row ["C"; "r7"; "9606"; "0"; "9606:3"].

(** A directory [samples] with four entries; no other directory. *)
Definition example_scandir (dir_name : string) : option (list string) :=
  if String.eqb dir_name "samples"
  then Some ["b.krk"; ".hidden.krk"; "a.krk"; "notes.txt"]
  else None.

(** ** Checks of the string primitives *)

Example strip_example : Py.strip "  a b  " = "a b".
Proof. reflexivity. Qed.

Example split_example : Py.split "," "a,,b," = ["a"; ""; "b"; ""].
Proof. reflexivity. Qed.

Example split_ws_example : Py.split_ws " 1:2  |:| 3:4 " = ["1:2"; "|:|"; "3:4"].
Proof. reflexivity. Qed.

Example remove_example :
  Py.remove "|:|" ["1:2"; "|:|"; "3:4"; "|:|"] = ["1:2"; "3:4"; "|:|"].
Proof. reflexivity. Qed.

Example int_examples :
  Py.int " 42 " = Some 42 /\ Py.int "-7" = Some (-7) /\ Py.int "1_000" = Some 1000 /\
  Py.int "007" = Some 7 /\ Py.int "" = None /\ Py.int "4x" = None /\
  Py.int "_1" = None /\ Py.int "1__0" = None /\ Py.int "+-1" = None /\
  Py.int "- 1" = None /\
  Py.int (String "028" "5") = None /\ Py.strip (String "028" "5") = "5".
Proof. repeat split; reflexivity. Qed.

Example sum_ints_example : Py.sum_ints (Py.split "|" "50|50") = Some 100.
Proof. reflexivity. Qed.

Example readlines_example :
  Py.readlines (row ["a"; "b"] +:+ "c") = [row ["a"; "b"]; "c"].
Proof. reflexivity. Qed.

(** ** The body of the loop is [deliver] after [parse] *)

Lemma loop_body_parse minscore st raw_line :
  loop_body minscore st raw_line = deliver minscore (parse raw_line) st.
Proof.
  unfold loop_body, parse.
  destruct (Py.split Py.TAB (Py.strip raw_line)) as [|c [|l [|t [|n [|m [|x r]]]]]];
    try reflexivity.
  destruct (Py.sum_ints (Py.split "|" n)) as [len|]; [|reflexivity].
  destruct (String.eqb c UNCLASSIFIED); [reflexivity|].
  destruct (count_kmers _ _) as [[]|mappings]; try reflexivity.
  destruct (Counter_total mappings =? 0); reflexivity.
Qed.

Lemma scan_cons minscore raw_line lines st :
  scan minscore (raw_line :: lines) st =
  match deliver minscore (parse raw_line) st with
  | Next st' => scan minscore lines st'
  | Raise e st' => Raise e st'
  end.
Proof. simpl. now rewrite loop_body_parse. Qed.

Lemma scan_app minscore lines1 lines2 st :
  scan minscore (lines1 ++ lines2) st =
  match scan minscore lines1 st with
  | Next st' => scan minscore lines2 st'
  | Raise e st' => Raise e st'
  end.
Proof.
  revert st. induction lines1 as [|raw lines1 IH]; intros st; [reflexivity|].
  simpl. destruct (loop_body minscore st raw); [apply IH|reflexivity].
Qed.

(** The verdict decides whether the pass ends with an exception. *)
Lemma deliver_fatal minscore v st :
  fatal v = true -> exists e st', deliver minscore v st = Raise e st'.
Proof. destruct v; try discriminate. intros _. simpl. eauto. Qed.

Lemma deliver_not_fatal minscore v st :
  fatal v = false -> exists st', deliver minscore v st = Next st'.
Proof.
  destruct v; try discriminate; intros _; simpl; eauto.
  destruct (low_score _ _ _); eauto.
Qed.

(** The scan reaches the end of the file iff no line is fatal. *)
Lemma scan_completes_iff minscore lines st :
  (exists st', scan minscore lines st = Next st') <->
  forallb (fun raw => negb (fatal (parse raw))) lines = true.
Proof.
  revert st. induction lines as [|raw lines IH]; intros st.
  - simpl. split; eauto.
  - rewrite scan_cons. simpl. destruct (fatal (parse raw)) eqn:Hf; simpl.
    + destruct (deliver_fatal minscore _ st Hf) as (e & st' & ->).
      split; [intros [? ?]; discriminate | discriminate].
    + destruct (deliver_not_fatal minscore _ st Hf) as (st' & ->). apply IH.
Qed.

(** ** The dict operations *)

Lemma lookup_append_or_create {A : Type} (d : gmap string (list A)) tid x tid' :
  append_or_create d tid x !! tid' =
  if decide (tid = tid') then Some (default [] (d !! tid) ++ [x]) else d !! tid'.
Proof.
  unfold append_or_create.
  destruct (d !! tid) as [l|] eqn:Hd; rewrite lookup_insert;
    destruct (decide (tid = tid')); reflexivity.
Qed.

Lemma lookup_append_or_create_extended {A : Type} (d : gmap string (list A)) tid x tid' :
  append_or_create d tid x !! tid' =
  extended (d !! tid') (if decide (tid = tid') then [x] else []).
Proof.
  rewrite lookup_append_or_create.
  destruct (decide (tid = tid')) as [->|]; [now destruct (d !! tid')|].
  unfold extended. destruct (d !! tid'); simpl; [|reflexivity].
  now rewrite app_nil_r.
Qed.

Lemma extended_nil {A : Type} (old : option (list A)) : extended old [] = old.
Proof. destruct old; simpl; [|reflexivity]. now rewrite app_nil_r. Qed.

Lemma extended_app {A : Type} (old : option (list A)) l1 l2 :
  extended (extended old l1) l2 = extended old (l1 ++ l2).
Proof.
  destruct old as [o|], l1 as [|a l1]; simpl; rewrite ?app_nil_r, <- ?app_assoc;
    reflexivity.
Qed.

Lemma length_extended {A B : Type} (o1 : option (list A)) (o2 : option (list B)) l1 l2 :
  length <$> o1 = length <$> o2 -> length l1 = length l2 ->
  length <$> extended o1 l1 = length <$> extended o2 l2.
Proof.
  intros Ho Hl. destruct o1 as [a|], o2 as [b|]; try discriminate; simpl in *.
  - rewrite !length_app. congruence.
  - destruct l1, l2; try discriminate; simpl; [reflexivity|]. f_equal. simpl in Hl. lia.
Qed.

Lemma total_length_insert {A : Type} (d : gmap string (list A)) tid l :
  total_length (<[tid := l]> d) =
  total_length d - Z.of_nat (length (default [] (d !! tid))) + Z.of_nat (length l).
Proof.
  unfold total_length.
  destruct (d !! tid) as [l0|] eqn:Hd; simpl.
  - rewrite <- insert_delete_eq.
    rewrite map_fold_insert_L; [| intros; lia | apply lookup_delete_eq].
    rewrite (map_fold_delete_L _ _ tid l0 d); [lia | intros; lia | assumption].
  - rewrite map_fold_insert_L; [lia | intros; lia | assumption].
Qed.

Lemma total_length_append_or_create {A : Type} (d : gmap string (list A)) tid x :
  total_length (append_or_create d tid x) = total_length d + 1.
Proof.
  unfold append_or_create. destruct (d !! tid) as [l|] eqn:Hd;
    rewrite total_length_insert, Hd; simpl; rewrite ?length_app; simpl; lia.
Qed.

Lemma total_length_nonneg {A : Type} (d : gmap string (list A)) : 0 <= total_length d.
Proof.
  unfold total_length.
  apply (map_fold_weak_ind (fun acc _ => 0 <= acc)); [lia|]. intros. lia.
Qed.

(** ** The counter of k-mers *)

Lemma Counter_total_add (c : gmap string Z) k n :
  Counter_total (<[k := Counter_get c k + n]> c) = Counter_total c + n.
Proof.
  unfold Counter_total, Counter_get.
  destruct (c !! k) as [v|] eqn:Hc; simpl.
  - rewrite <- insert_delete_eq.
    rewrite map_fold_insert_L; [| intros; lia | apply lookup_delete_eq].
    rewrite (map_fold_delete_L _ _ k v c); [lia | intros; lia | assumption].
  - rewrite map_fold_insert_L; [lia | intros; lia | assumption].
Qed.

Lemma Counter_get_add (c : gmap string Z) k n tid :
  Counter_get (<[k := Counter_get c k + n]> c) tid =
  Counter_get c tid + (if decide (k = tid) then n else 0).
Proof.
  unfold Counter_get. rewrite lookup_insert.
  destruct (decide (k = tid)) as [->|]; simpl; [reflexivity | lia].
Qed.

Lemma kmers_total_cons k n pairs :
  kmers_total ((k, n) :: pairs) = n + kmers_total pairs.
Proof. reflexivity. Qed.

Lemma kmers_of_cons tid k n pairs :
  kmers_of tid ((k, n) :: pairs) =
  (if decide (k = tid) then n else 0) + kmers_of tid pairs.
Proof.
  unfold kmers_of. rewrite filter_cons. simpl.
  destruct (decide (k = tid)); reflexivity.
Qed.

(** [count_kmers] computes the per-taxon sums and the total of the pairs of
    the data model; it raises exactly when some token is not a pair. *)
Lemma count_kmers_pairs maps pairs (c : gmap string Z) :
  kmer_pairs maps = Some pairs ->
  exists c', count_kmers maps c = inr c' /\
    Counter_total c' = Counter_total c + kmers_total pairs /\
    forall tid, Counter_get c' tid = Counter_get c tid + kmers_of tid pairs.
Proof.
  revert pairs c. induction maps as [|token maps IH]; intros pairs c; simpl.
  - intros [= <-]. exists c. unfold kmers_total, kmers_of. simpl.
    repeat split; intros; lia.
  - destruct (Py.split ":" token) as [|k [|v r]]; try discriminate.
    destruct (Py.int v) as [n|]; [|discriminate].
    destruct (kmer_pairs maps) as [ps|] eqn:Hps; [|discriminate].
    intros [= <-].
    destruct (IH ps (<[k := Counter_get c k + n]> c) eq_refl) as (c' & Hc' & Ht & Hg).
    exists c'. split; [assumption|]. split.
    + rewrite Ht, Counter_total_add, kmers_total_cons. lia.
    + intros tid. rewrite Hg, Counter_get_add, kmers_of_cons. lia.
Qed.

Lemma count_kmers_some_pairs maps (c c' : gmap string Z) :
  count_kmers maps c = inr c' -> exists pairs, kmer_pairs maps = Some pairs.
Proof.
  revert c. induction maps as [|token maps IH]; intros c; simpl; [eauto|].
  destruct (Py.split ":" token) as [|k [|v r]]; try discriminate.
  destruct (Py.int v) as [n|]; [|discriminate].
  intros H. destruct (IH _ H) as [ps ->]. eauto.
Qed.

Lemma Counter_total_empty : Counter_total ∅ = 0.
Proof. reflexivity. Qed.

Lemma Counter_get_empty tid : Counter_get ∅ tid = 0.
Proof. reflexivity. Qed.

(** ** The threshold test *)

Lemma Qlt_bool_iff x y : Qlt_bool x y = true <-> (x < y)%Q.
Proof. unfold Qlt_bool, Qlt. apply Z.ltb_lt. Qed.

Lemma Qlt_bool_negb_le x y : Qlt_bool x y = negb (Qle_bool y x).
Proof. unfold Qlt_bool, Qle_bool. apply Z.ltb_antisym. Qed.

Lemma low_score_metric minscore shel score :
  low_score minscore shel score =
  match minscore with
  | None => false
  | Some T => negb (Qle_bool T (metric shel score))
  end.
Proof.
  unfold low_score, metric. destruct minscore as [T|]; [|reflexivity].
  destruct scoring; apply Qlt_bool_negb_le.
Qed.

(** The read is ignored iff it is not retained in the sense of the
    specification. *)
Lemma low_score_false_iff minscore shel score :
  low_score minscore shel score = false <-> retained_by minscore shel score.
Proof.
  rewrite low_score_metric. unfold retained_by. destruct minscore as [T|]; [|done].
  rewrite negb_false_iff. apply Qle_bool_iff.
Qed.

Lemma low_score_true_iff minscore shel score :
  low_score minscore shel score = true <-> ~ retained_by minscore shel score.
Proof.
  rewrite <- low_score_false_iff. destruct (low_score _ _ _); split; congruence.
Qed.

Lemma retained_read_derived minscore raw_line length tid shel score :
  parse raw_line = Derived length tid shel score ->
  retained_read minscore raw_line =
  if low_score minscore shel score then None
  else Some (MkRead tid shel score length).
Proof.
  intros H. unfold retained_read. rewrite H, low_score_metric.
  destruct minscore as [T|]; [|reflexivity].
  destruct (Qle_bool T (metric shel score)); reflexivity.
Qed.

Lemma retained_read_not_derived minscore raw_line :
  (forall length tid shel score, parse raw_line <> Derived length tid shel score) ->
  retained_read minscore raw_line = None.
Proof.
  intros H. unfold retained_read. destruct (parse raw_line); try reflexivity.
  now destruct (H length tid shel score).
Qed.

(** ** Classified records *)

Lemma parse_classified raw_line tid length pairs :
  classified_record raw_line tid length pairs ->
  parse raw_line =
  if kmers_total pairs =? 0 then Uncaught ZeroDivisionError length
  else Derived length tid (kmers_of tid pairs + K_MER_SIZE)
         (inject_Z (kmers_of tid pairs) / inject_Z (kmers_total pairs) * 100)%Q.
Proof.
  intros (clas & label & len & maps & Hsplit & Hclas & Hlen & Hpairs).
  unfold parse. rewrite Hsplit, Hlen.
  apply String.eqb_neq in Hclas. rewrite Hclas.
  destruct (count_kmers_pairs _ _ ∅ Hpairs) as (c' & -> & Htot & Hget).
  rewrite Counter_total_empty in Htot. rewrite Htot, Hget, Counter_get_empty.
  reflexivity.
Qed.

Lemma parse_derived_classified raw_line length tid shel score :
  parse raw_line = Derived length tid shel score ->
  exists pairs, classified_record raw_line tid length pairs /\ kmers_total pairs <> 0.
Proof.
  unfold parse.
  destruct (Py.split Py.TAB (Py.strip raw_line)) as [|c [|l [|t [|n [|m [|x r]]]]]] eqn:Hs;
    try discriminate.
  destruct (Py.sum_ints (Py.split "|" n)) as [len|] eqn:Hl; [|discriminate].
  destruct (String.eqb c UNCLASSIFIED) eqn:Hc; [discriminate|].
  destruct (count_kmers _ _) as [[]|mappings] eqn:Hk; try discriminate.
  destruct (Counter_total mappings =? 0) eqn:Ht; [discriminate|].
  intros [= -> -> _ _].
  destruct (count_kmers_some_pairs _ _ _ Hk) as [pairs Hp].
  exists pairs. split.
  - exists c, l, n, m. repeat split; try assumption. now apply String.eqb_neq.
  - destruct (count_kmers_pairs _ _ ∅ Hp) as (c' & Hc' & Htot & _).
    rewrite Hk in Hc'. injection Hc' as <-.
    rewrite Counter_total_empty in Htot. apply Z.eqb_neq in Ht. lia.
Qed.

(** ** What one pass through the body does to the state *)

Lemma retained_cons minscore raw_line lines :
  retained minscore (raw_line :: lines) =
  match retained_read minscore raw_line with
  | Some r => r :: retained minscore lines
  | None => retained minscore lines
  end.
Proof. reflexivity. Qed.

Lemma of_taxon_cons tid r reads :
  of_taxon tid (r :: reads) =
  if decide (read_tid r = tid) then r :: of_taxon tid reads else of_taxon tid reads.
Proof. unfold of_taxon. now rewrite filter_cons. Qed.

(** Either the three dicts are as they were, or the read that the line
    yields went into all three. *)
Lemma deliver_dicts minscore raw_line st st' :
  deliver minscore (parse raw_line) st = Next st' ->
  match retained_read minscore raw_line with
  | None => untouched st st'
  | Some r =>
      all_scores st' = append_or_create (all_scores st) (read_tid r) (read_shel r) /\
      all_kmerel st' = append_or_create (all_kmerel st) (read_tid r) (read_score r) /\
      all_length st' = append_or_create (all_length st) (read_tid r) (read_length r)
  end.
Proof.
  destruct (parse raw_line) as [o|o|o n|n|e n|n tid shel score] eqn:Hp; simpl;
    try (rewrite retained_read_not_derived by (rewrite Hp; discriminate));
    try (intros [= <-]; now repeat split); try discriminate.
  rewrite (retained_read_derived _ _ _ _ _ _ Hp).
  destruct (low_score minscore shel score); intros [= <-]; now repeat split.
Qed.

Lemma deliver_raise_dicts minscore v st e st' :
  deliver minscore v st = Raise e st' -> untouched st st'.
Proof.
  destruct v; simpl; try discriminate.
  - intros [= _ <-]. now repeat split.
  - destruct (low_score _ _ _); discriminate.
Qed.

(** The per-taxon lists at the end of a scan are the values of the
    retained reads of the taxon, in arrival order. *)
Lemma scan_lists minscore lines st st' tid :
  scan minscore lines st = Next st' ->
  all_scores st' !! tid =
    extended (all_scores st !! tid)
             (read_shel <$> of_taxon tid (retained minscore lines)) /\
  all_kmerel st' !! tid =
    extended (all_kmerel st !! tid)
             (read_score <$> of_taxon tid (retained minscore lines)) /\
  all_length st' !! tid =
    extended (all_length st !! tid)
             (read_length <$> of_taxon tid (retained minscore lines)).
Proof.
  revert st. induction lines as [|raw lines IH]; intros st.
  - intros [= <-]. simpl. now rewrite !extended_nil.
  - rewrite scan_cons.
    destruct (deliver minscore (parse raw) st) as [st1|] eqn:Hd; [|discriminate].
    intros Hscan. destruct (IH _ Hscan) as (H1 & H2 & H3).
    apply deliver_dicts in Hd. rewrite retained_cons.
    destruct (retained_read minscore raw) as [r|].
    + destruct Hd as (E1 & E2 & E3).
      rewrite H1, H2, H3, E1, E2, E3, !lookup_append_or_create_extended, !extended_app.
      rewrite of_taxon_cons. destruct (decide (read_tid r = tid)); now repeat split.
    + destruct Hd as (E1 & E2 & E3). now rewrite H1, H2, H3, E1, E2, E3.
Qed.

Lemma scan_filt_seqs minscore lines st st' :
  scan minscore lines st = Next st' ->
  filt_seqs st' = filt_seqs st + Z.of_nat (length (retained minscore lines)).
Proof.
  revert st. induction lines as [|raw lines IH]; intros st.
  - intros [= <-]. simpl. lia.
  - rewrite scan_cons.
    destruct (deliver minscore (parse raw) st) as [st1|] eqn:Hd; [|discriminate].
    intros Hscan. rewrite (IH _ Hscan). apply deliver_dicts in Hd.
    rewrite retained_cons. unfold filt_seqs.
    destruct (retained_read minscore raw) as [r|].
    + destruct Hd as (-> & _). rewrite total_length_append_or_create.
      simpl length. lia.
    + destruct Hd as (-> & _). reflexivity.
Qed.

(** ** The three lists stay parallel *)

Lemma parallel_initial : parallel initial.
Proof. intros tid. simpl. now rewrite !lookup_empty. Qed.

Lemma parallel_untouched st st' : untouched st st' -> parallel st -> parallel st'.
Proof. intros (E1 & E2 & E3) H tid. rewrite E1, E2, E3. apply H. Qed.

Lemma parallel_one_entry_each st st' :
  one_entry_each st st' -> parallel st -> parallel st'.
Proof.
  intros (t & shel & score & len & E1 & E2 & E3) H tid.
  rewrite E1, E2, E3, !lookup_append_or_create_extended.
  destruct (H tid) as [Ha Hb].
  split; apply length_extended; try assumption; now destruct (decide (t = tid)).
Qed.

Lemma loop_body_dicts minscore st raw_line st' :
  loop_body minscore st raw_line = Next st' ->
  untouched st st' \/ one_entry_each st st'.
Proof.
  rewrite loop_body_parse. intros H. apply deliver_dicts in H.
  destruct (retained_read minscore raw_line) as [r|]; [right|now left].
  now exists (read_tid r), (read_shel r), (read_score r), (read_length r).
Qed.

Lemma reachable_parallel minscore st : reachable minscore st -> parallel st.
Proof.
  induction 1 as [|st raw st' _ IH Hb|st raw e st' _ IH Hb].
  - apply parallel_initial.
  - destruct (loop_body_dicts _ _ _ _ Hb).
    + now apply (parallel_untouched st).
    + now apply (parallel_one_entry_each st).
  - rewrite loop_body_parse in Hb. apply deliver_raise_dicts in Hb.
    now apply (parallel_untouched st).
Qed.

(** Every state the scan of a file goes through is reachable. *)
Lemma scan_reachable minscore lines st st' :
  reachable minscore st ->
  scan minscore lines st = Next st' -> reachable minscore st'.
Proof.
  revert st. induction lines as [|raw lines IH]; intros st Hr; simpl.
  - now intros [= <-].
  - destruct (loop_body minscore st raw) as [st1|] eqn:Hb; [|discriminate].
    apply IH. now apply (reachable_next minscore st raw).
Qed.

Lemma scan_raise_reachable minscore lines st e st' :
  reachable minscore st ->
  scan minscore lines st = Raise e st' -> reachable minscore st'.
Proof.
  revert st. induction lines as [|raw lines IH]; intros st Hr; simpl; [discriminate|].
  destruct (loop_body minscore st raw) as [st1|e1 st1] eqn:Hb.
  - apply IH. now apply (reachable_next minscore st raw).
  - intros [= <- <-]. now apply (reachable_raise minscore st raw e1).
Qed.

(** ** The position marker of the last error *)

Lemma deliver_error_read minscore v st st' :
  deliver minscore v st = Next st' ->
  error_read st <= num_read st + 1 ->
  error_read st' <= num_read st' + 1 /\
  (error_read st' = num_read st' + 1 <-> rejected v = true).
Proof.
  destruct v; simpl; try discriminate;
    try (intros [= <-]; simpl; intros; split; [lia | split; [reflexivity | lia]]);
    try (intros [= <-]; simpl; intros; split; [lia | split; [lia | discriminate]]).
  destruct (low_score _ _ _); intros [= <-]; simpl; intros;
    (split; [lia | split; [lia | discriminate]]).
Qed.

Lemma scan_error_read minscore lines st st' :
  scan minscore lines st = Next st' ->
  error_read st <= num_read st + 1 ->
  error_read st' <= num_read st' + 1 /\
  (error_read st' = num_read st' + 1 <->
   match last lines with
   | Some raw_line => rejected (parse raw_line) = true
   | None => error_read st = num_read st + 1
   end).
Proof.
  revert st. induction lines as [|raw lines IH]; intros st.
  - intros [= <-] H. simpl. tauto.
  - rewrite scan_cons.
    destruct (deliver minscore (parse raw) st) as [st1|] eqn:Hd; [|discriminate].
    intros Hscan Hle.
    destruct (deliver_error_read _ _ _ _ Hd Hle) as [Hle1 Hiff1].
    destruct (IH _ Hscan Hle1) as [Hle' Hiff']. split; [assumption|].
    rewrite Hiff'. destruct lines as [|raw' lines]; [exact Hiff1|].
    change (last (raw :: raw' :: lines)) with (last (raw' :: lines)).
    destruct (last (raw' :: lines)) eqn:Hl; [reflexivity|].
    now apply last_None in Hl.
Qed.

(** The warning is printed after the loop only. *)
Lemma deliver_console minscore v st st' :
  deliver minscore v st = Next st' ->
  WarningTruncated ∉ console st -> WarningTruncated ∉ console st'.
Proof.
  destruct v; simpl; try discriminate;
    try (intros [= <-]; simpl; rewrite ?elem_of_app, ?list_elem_of_singleton;
         intros H [?|?]; [tauto | discriminate]);
    try (intros [= <-]; simpl; tauto).
  destruct (low_score _ _ _); intros [= <-]; simpl; tauto.
Qed.

Lemma deliver_raise_console minscore v st e st' :
  deliver minscore v st = Raise e st' -> console st' = console st.
Proof.
  destruct v; simpl; try discriminate.
  - now intros [= _ <-].
  - destruct (low_score _ _ _); discriminate.
Qed.

Lemma scan_console minscore lines st st' :
  scan minscore lines st = Next st' ->
  WarningTruncated ∉ console st -> WarningTruncated ∉ console st'.
Proof.
  revert st. induction lines as [|raw lines IH]; intros st.
  - now intros [= <-].
  - rewrite scan_cons.
    destruct (deliver minscore (parse raw) st) as [st1|] eqn:Hd; [|discriminate].
    intros Hscan Hc. apply (IH _ Hscan). now apply (deliver_console _ _ _ _ Hd).
Qed.

Lemma scan_raise_console minscore lines st e st' :
  scan minscore lines st = Raise e st' ->
  WarningTruncated ∉ console st -> WarningTruncated ∉ console st'.
Proof.
  revert st. induction lines as [|raw lines IH]; intros st; [discriminate|].
  rewrite scan_cons.
  destruct (deliver minscore (parse raw) st) as [st1|e1 st1] eqn:Hd.
  - intros Hscan Hc. apply (IH _ Hscan). now apply (deliver_console _ _ _ _ Hd).
  - intros [= <- <-] Hc. now rewrite (deliver_raise_console _ _ _ _ _ Hd).
Qed.

(** ** Dict comprehensions *)

Lemma comprehension_inr {A B : Type} (f : string -> A -> Exn + B) d m :
  comprehension f d = inr m ->
  forall k,
    match d !! k with
    | Some v => exists b, f k v = inr b /\ m !! k = Some b
    | None => m !! k = None
    end.
Proof.
  unfold comprehension.
  destruct (omap _ (map_to_list d)) as [|e l] eqn:Ho; [|discriminate].
  intros [= <-] k. rewrite map_lookup_imap.
  destruct (d !! k) as [v|] eqn:Hd; simpl; [|reflexivity].
  destruct (f k v) as [e|b] eqn:Hf; [|eauto].
  exfalso. apply elem_of_map_to_list in Hd.
  assert (e ∈ omap (fun kv : string * A =>
            match f kv.1 kv.2 with inl e => Some e | inr _ => None end)
            (map_to_list d)) as Hin.
  { apply list_elem_of_omap. exists (k, v). simpl. now rewrite Hf. }
  rewrite Ho in Hin. now apply not_elem_of_nil in Hin.
Qed.

Lemma comprehension_total {A B : Type} (f : string -> A -> Exn + B) d :
  (forall k v, d !! k = Some v -> exists b, f k v = inr b) ->
  exists m, comprehension f d = inr m.
Proof.
  intros H. unfold comprehension.
  destruct (omap _ (map_to_list d)) as [|e l] eqn:Ho; [eauto|].
  exfalso.
  assert (e ∈ omap (fun kv : string * A =>
            match f kv.1 kv.2 with inl e => Some e | inr _ => None end)
            (map_to_list d)) as Hin by (rewrite Ho; left).
  apply list_elem_of_omap in Hin. destruct Hin as ([k v] & Hkv & Hf).
  apply elem_of_map_to_list in Hkv. destruct (H k v Hkv) as [b Hb].
  simpl in Hf. now rewrite Hb in Hf.
Qed.

(** ** Filtering by the minimum score *)

Lemma filt_seqs_accumulate tid shel score length st :
  filt_seqs (accumulate tid shel score length st) = filt_seqs st + 1.
Proof. unfold filt_seqs. simpl. apply total_length_append_or_create. Qed.

Lemma filt_seqs_count_read length st : filt_seqs (count_read length st) = filt_seqs st.
Proof. reflexivity. Qed.

Lemma retained_by_antitone T1 T2 shel score :
  (T1 <= T2)%Q -> retained_by (Some T2) shel score -> retained_by (Some T1) shel score.
Proof. unfold retained_by. intros H12 H2. now apply (Qle_trans _ T2). Qed.

(** The reads retained under a threshold are retained, in the same order,
    under any lower one. *)
Lemma retained_sublist T1 T2 lines :
  (T1 <= T2)%Q -> sublist (retained (Some T2) lines) (retained (Some T1) lines).
Proof.
  intros H12. induction lines as [|raw lines IH]; [constructor|].
  rewrite !retained_cons. unfold retained_read.
  destruct (parse raw); try assumption.
  destruct (Qle_bool T2 (metric shel score)) eqn:H2.
  - apply Qle_bool_iff in H2.
    assert (Qle_bool T1 (metric shel score) = true) as ->
      by (apply Qle_bool_iff; now apply (Qle_trans _ T2)).
    now constructor.
  - destruct (Qle_bool T1 (metric shel score)); [now constructor | assumption].
Qed.

(** C3: a derived record is retained under the threshold [T] iff its metric
    (the relative score under KRAKEN, shel under any other policy) is at
    least [T]: then it is accumulated and the number of retained reads
    grows by one, otherwise the read is only counted as read and no error
    is recorded.  For a fixed file, a higher threshold never retains more
    reads. *)
Theorem C3_threshold_filter (T : Q) :
  (forall raw_line length tid shel score st,
      parse raw_line = Derived length tid shel score ->
      exists st',
        loop_body (Some T) st raw_line = Next st' /\
        (filt_seqs st' = filt_seqs st + 1 <-> (T <= metric shel score)%Q) /\
        ((T <= metric shel score)%Q ->
         st' = accumulate tid shel score length (count_read length st)) /\
        (~ (T <= metric shel score)%Q -> st' = count_read length st)) /\
  (forall T' lines st,
      (T <= T')%Q ->
      scan (Some T) lines initial = Next st ->
      exists st',
        scan (Some T') lines initial = Next st' /\ filt_seqs st' <= filt_seqs st).
Proof.
  split.
  - intros raw length tid shel score st Hp.
    rewrite loop_body_parse, Hp. unfold deliver.
    destruct (low_score (Some T) shel score) eqn:Hl.
    + apply low_score_true_iff in Hl. simpl in Hl.
      eexists. split; [reflexivity|]. rewrite filt_seqs_count_read.
      repeat split; try tauto. lia.
    + apply low_score_false_iff in Hl. simpl in Hl.
      eexists. split; [reflexivity|].
      rewrite filt_seqs_accumulate, filt_seqs_count_read. tauto.
  - intros T' lines st HT Hscan.
    assert (exists st', scan (Some T') lines initial = Next st') as [st' Hscan'].
    { apply scan_completes_iff. eapply scan_completes_iff. eauto. }
    exists st'. split; [assumption|].
    rewrite (scan_filt_seqs _ _ _ _ Hscan), (scan_filt_seqs _ _ _ _ Hscan').
    pose proof (sublist_length _ _ (retained_sublist T T' lines HT)). lia.
Qed.

(** ** The derived metrics *)

Lemma kmers_of_absent tid pairs : tid ∉ pairs.*1 -> kmers_of tid pairs = 0.
Proof.
  induction pairs as [|[k n] pairs IH]; [reflexivity|].
  rewrite fmap_cons, not_elem_of_cons, kmers_of_cons. simpl. intros [Hne Hni].
  rewrite (IH Hni). destruct (decide (k = tid)); [congruence | reflexivity].
Qed.

Lemma kmers_total_nonneg pairs :
  Forall (fun p : string * Z => 0 <= p.2) pairs -> 0 <= kmers_total pairs.
Proof.
  induction 1 as [|[k n] pairs Hn _ IH]; [reflexivity|].
  rewrite kmers_total_cons. simpl in Hn. lia.
Qed.

Lemma kmers_of_bounds tid pairs :
  Forall (fun p : string * Z => 0 <= p.2) pairs ->
  0 <= kmers_of tid pairs <= kmers_total pairs.
Proof.
  induction 1 as [|[k n] pairs Hn _ IH].
  - unfold kmers_of, kmers_total. simpl. lia.
  - rewrite kmers_total_cons, kmers_of_cons. simpl in Hn.
    destruct (decide (k = tid)); lia.
Qed.

Lemma percentage_bounds (own total : Z) :
  0 <= own <= total -> total <> 0 ->
  (0 <= inject_Z own / inject_Z total * 100 <= 100)%Q.
Proof.
  intros [H0 Hle] Hne.
  assert (0 < inject_Z total)%Q as Hpos
    by (change 0%Q with (inject_Z 0); rewrite <- Zlt_Qlt; lia).
  assert (0 <= inject_Z own / inject_Z total)%Q as Hlo.
  { apply Qle_shift_div_l; [assumption|]. rewrite Qmult_0_l.
    change 0%Q with (inject_Z 0). rewrite <- Zle_Qle. lia. }
  assert (inject_Z own / inject_Z total <= 1)%Q as Hhi.
  { apply Qle_shift_div_r; [assumption|]. rewrite Qmult_1_l, <- Zle_Qle. lia. }
  split.
  - apply Qmult_le_0_compat; [assumption | discriminate].
  - change 100%Q with (1 * 100)%Q at 2.
    apply Qmult_le_compat_r; [assumption | discriminate].
Qed.

(** The pass through the body for a classified record with a nonzero
    total k-mer count. *)
Lemma loop_body_classified raw_line tid length pairs minscore st :
  classified_record raw_line tid length pairs ->
  kmers_total pairs <> 0 ->
  loop_body minscore st raw_line =
    (if low_score minscore (kmers_of tid pairs + K_MER_SIZE)
          (inject_Z (kmers_of tid pairs) / inject_Z (kmers_total pairs) * 100)%Q
     then Next (count_read length st)
     else Next (accumulate tid (kmers_of tid pairs + K_MER_SIZE)
                  (inject_Z (kmers_of tid pairs) / inject_Z (kmers_total pairs) * 100)%Q
                  length (count_read length st))).
Proof.
  intros Hrec Htot.
  rewrite loop_body_parse, (parse_classified _ _ _ _ Hrec).
  apply Z.eqb_neq in Htot. rewrite Htot. reflexivity.
Qed.

(** C4 (as the code has it): for a classified record with a nonzero total
    k-mer count, shel is the k-mer count of the record's own taxon id
    (repeated pairs summed) plus [K_MER_SIZE] and the relative score is that
    count divided by the total count times 100: these are the values the
    threshold test reads and the lists receive.  The relative score lies in
    [0, 100] when no k-mer count of the record is negative. *)
Theorem C4_shel_and_relative_score raw_line tid length pairs minscore st :
  classified_record raw_line tid length pairs ->
  kmers_total pairs <> 0 ->
  let own := kmers_of tid pairs in
  let shel := own + K_MER_SIZE in
  let score := (inject_Z own / inject_Z (kmers_total pairs) * 100)%Q in
  loop_body minscore st raw_line =
    (if low_score minscore shel score then Next (count_read length st)
     else Next (accumulate tid shel score length (count_read length st))) /\
  (Forall (fun p : string * Z => 0 <= p.2) pairs -> (0 <= score <= 100)%Q).
Proof.
  intros Hrec Htot own shel score. split.
  - now apply loop_body_classified.
  - intros Hpos. apply percentage_bounds; [|assumption].
    now apply kmers_of_bounds.
Qed.

(** C10: a classified record whose own taxon id is not among its k-mer
    pairs, with a nonzero total count, is not an error: the pass goes on to
    the threshold test with shel equal to [K_MER_SIZE] and a relative score
    of 0; nothing is printed and the error marker stays; when the threshold
    permits, the read is appended to the three lists of its own taxon id. *)
Theorem C10_own_taxon_without_kmers raw_line tid length pairs minscore st :
  classified_record raw_line tid length pairs ->
  tid ∉ pairs.*1 ->
  kmers_total pairs <> 0 ->
  exists score st',
    (score == 0)%Q /\
    loop_body minscore st raw_line = Next st' /\
    error_read st' = error_read st /\ console st' = console st /\
    num_read st' = num_read st + 1 /\
    (retained_by minscore K_MER_SIZE 0 ->
     st' = accumulate tid K_MER_SIZE score length (count_read length st) /\
     all_scores st' !! tid = Some (default [] (all_scores st !! tid) ++ [K_MER_SIZE]) /\
     all_kmerel st' !! tid = Some (default [] (all_kmerel st !! tid) ++ [score]) /\
     all_length st' !! tid = Some (default [] (all_length st !! tid) ++ [length])) /\
    (~ retained_by minscore K_MER_SIZE 0 -> st' = count_read length st).
Proof.
  intros Hrec Habs Htot.
  pose proof (loop_body_classified raw_line tid length pairs minscore st
                Hrec Htot) as Hbody.
  rewrite (kmers_of_absent _ _ Habs) in Hbody. simpl in Hbody.
  set (score := (inject_Z 0 / inject_Z (kmers_total pairs) * 100)%Q) in *.
  assert (score == 0)%Q as Hz.
  { unfold score, Qdiv. change (inject_Z 0) with 0%Q. now rewrite !Qmult_0_l. }
  assert (retained_by minscore K_MER_SIZE 0 <-> retained_by minscore K_MER_SIZE score)
    as Hiff.
  { unfold retained_by, metric. destruct minscore as [T|]; [|tauto].
    destruct scoring; try tauto; now rewrite Hz. }
  exists score. change (0 + K_MER_SIZE) with K_MER_SIZE in Hbody.
  destruct (low_score minscore K_MER_SIZE score) eqn:Hl.
  - apply low_score_true_iff in Hl. exists (count_read length st).
    split; [assumption|]. split; [assumption|]. repeat split; tauto.
  - apply low_score_false_iff in Hl.
    exists (accumulate tid K_MER_SIZE score length (count_read length st)).
    split; [assumption|]. split; [assumption|].
    repeat split; try tauto; simpl;
      rewrite lookup_append_or_create; now destruct (decide (tid = tid)).
Qed.

(** ** The whole function *)

Section WholeFunction.

Variable log10 : Q -> Q.

Lemma select_scores_console st : WarningTruncated ∉ (select_scores log10 st).1.
Proof.
  unfold select_scores. destruct scoring; simpl;
    rewrite ?list_elem_of_singleton; try apply not_elem_of_nil; discriminate.
Qed.

(** What [summarize] prints: the console of the scan, the warning iff the
    marker points after the last read, and what the selection prints. *)
Lemma summarize_warns minscore st :
  WarningTruncated ∉ console st ->
  (warns (summarize log10 minscore st) <-> error_read st = num_read st + 1).
Proof.
  intros Hc. unfold warns, summarize.
  pose proof (select_scores_console st) as Hsel.
  destruct (error_read st =? num_read st + 1) eqn:He;
    [apply Z.eqb_eq in He | apply Z.eqb_neq in He];
    destruct (num_read st =? 0); simpl;
    try destruct (filt_seqs st =? 0); simpl;
    try destruct (select_scores log10 st) as [evs [e|o]]; simpl in *;
    rewrite ?elem_of_app, ?list_elem_of_singleton; tauto.
Qed.


Lemma read_generic_output_inr file minscore evs out :
  read_generic_output log10 file minscore = (evs, inr out) ->
  exists header lines st,
    file = Some (header :: lines) /\
    length (Py.split Py.TAB header) = 5%nat /\
    scan minscore lines initial = Next st /\
    summarize log10 minscore st = (evs, inr out).
Proof.
  unfold read_generic_output. destruct file as [[|header lines]|]; try discriminate.
  simpl hd. simpl tl.
  destruct (length (Py.split Py.TAB header) =? 5)%nat eqn:Hh; simpl; [|discriminate].
  destruct (scan minscore lines initial) as [st|e st] eqn:Hs; [|discriminate].
  intros H. exists header, lines, st. apply Nat.eqb_eq in Hh. auto.
Qed.

Lemma read_generic_output_scanned header lines minscore st :
  length (Py.split Py.TAB header) = 5%nat ->
  scan minscore lines initial = Next st ->
  read_generic_output log10 (Some (header :: lines)) minscore = summarize log10 minscore st.
Proof.
  intros Hh Hs. unfold read_generic_output. simpl hd. simpl tl.
  apply Nat.eqb_eq in Hh. rewrite Hh, Hs. reflexivity.
Qed.

Lemma summarize_inr minscore st evs stat counts out_scores :
  summarize log10 minscore st = (evs, inr (stat, counts, out_scores)) ->
  num_read st <> 0 /\ filt_seqs st <> 0 /\
  SampleStats.scores stat = all_scores st /\
  SampleStats.scores2 stat = all_kmerel st /\
  SampleStats.lens stat = all_length st /\
  SampleStats.seq_read stat = num_read st /\
  SampleStats.seq_unclas stat = num_uncl st /\
  SampleStats.seq_filt stat = filt_seqs st /\
  (forall tid, counts !! tid = (fun l => Z.of_nat (length l)) <$> (all_scores st !! tid)) /\
  (select_scores log10 st).2 = inr out_scores.
Proof.
  unfold summarize.
  destruct (num_read st =? 0) eqn:Hn; [discriminate|].
  destruct (filt_seqs st =? 0) eqn:Hf; [discriminate|].
  destruct (select_scores log10 st) as [evs' [e|o]]; [discriminate|].
  intros [= _ <- <- <-]. apply Z.eqb_neq in Hn, Hf. simpl.
  repeat split; try assumption. intros tid. apply lookup_fmap.
Qed.

(** After the scan the function raises when no read was read or when no
    read was retained. *)
Lemma summarize_raises minscore st :
  (num_read st = 0 -> (summarize log10 minscore st).2 = inl CannotReadAnySequence) /\
  (num_read st <> 0 -> filt_seqs st = 0 ->
   (summarize log10 minscore st).2 = inl NoSequencePassedFilter).
Proof.
  unfold summarize. split.
  - intros ->. reflexivity.
  - intros Hn ->. apply Z.eqb_neq in Hn. rewrite Hn. reflexivity.
Qed.

(** C5: when the header line (the empty string for an empty file) does not
    have exactly 5 tab-separated fields the function prints the format
    message and raises [UnsupportedFileFormat]; the data lines play no part
    in the result and none of them is reported.  A data line with a wrong
    number of fields is another matter: the loop prints, moves the error
    marker and goes on to the next line. *)
Theorem C5_header_field_count lines minscore :
  length (Py.split Py.TAB (hd "" lines)) <> 5%nat ->
  read_generic_output log10 (Some lines) minscore =
    ([OutputFormatNotSupported (Py.split Py.TAB (hd "" lines))],
     inl UnsupportedFileFormat) /\
  (forall st raw_line,
      length (Py.split Py.TAB (Py.strip raw_line)) <> 5%nat ->
      loop_body minscore st raw_line =
      Next (ignore_line (ErrorParsingLine (Py.strip raw_line)) st)).
Proof.
  intros Hh. split.
  - unfold read_generic_output. apply Nat.eqb_neq in Hh. now rewrite Hh.
  - intros st raw Hr. unfold loop_body.
    destruct (Py.split Py.TAB (Py.strip raw)) as [|c [|l [|t [|n [|m [|x r]]]]]];
      try reflexivity.
    now destruct Hr.
Qed.

(** C7: in every state the scan goes through, and so in the state the
    summary is computed from, every taxon id has lists of the same length in
    the three dicts (and is a key of all three or of none).  A pass through
    the body of the loop either leaves the three dicts as they are or
    appends one entry under the same key to each of them. *)
Theorem C7_lists_stay_parallel minscore :
  (forall st, reachable minscore st -> parallel st) /\
  (forall lines st, scan minscore lines initial = Next st -> reachable minscore st) /\
  (forall lines e st,
      scan minscore lines initial = Raise e st -> reachable minscore st) /\
  (forall st raw_line st',
      loop_body minscore st raw_line = Next st' ->
      untouched st st' \/ one_entry_each st st') /\
  (forall st raw_line e st',
      loop_body minscore st raw_line = Raise e st' -> untouched st st').
Proof.
  split; [|split; [|split; [|split]]].
  - apply reachable_parallel.
  - intros lines st. apply scan_reachable. constructor.
  - intros lines e st. apply scan_raise_reachable. constructor.
  - apply loop_body_dicts.
  - intros st raw e st'. rewrite loop_body_parse. apply deliver_raise_dicts.
Qed.

(** The truncated-file warning is printed iff the file has a header of 5
    fields, the scan reaches the end of the file and the last data line is
    one that ended in an [except ValueError] handler.  In particular there
    is no warning when the last line is not such a line, whatever happened
    on the lines before it. *)
Lemma truncated_warning_iff file minscore :
  (warns (read_generic_output log10 file minscore) <->
   exists header lines raw_line st,
     file = Some (header :: lines ++ [raw_line]) /\
     length (Py.split Py.TAB header) = 5%nat /\
     scan minscore (lines ++ [raw_line]) initial = Next st /\
     rejected (parse raw_line) = true) /\
  (forall header lines raw_line,
      file = Some (header :: lines ++ [raw_line]) ->
      rejected (parse raw_line) = false ->
      ~ warns (read_generic_output log10 file minscore)).
Proof.
  assert (warns (read_generic_output log10 file minscore) ->
          exists header lines raw_line st,
            file = Some (header :: lines ++ [raw_line]) /\
            length (Py.split Py.TAB header) = 5%nat /\
            scan minscore (lines ++ [raw_line]) initial = Next st /\
            rejected (parse raw_line) = true) as Hwarn.
  { unfold read_generic_output. destruct file as [ls|].
    2:{ intros H. now apply not_elem_of_nil in H. }
    destruct (length (Py.split Py.TAB (hd "" ls)) =? 5)%nat eqn:Hh; simpl.
    2:{ unfold warns. simpl. rewrite list_elem_of_singleton. discriminate. }
    destruct ls as [|header lines]; [discriminate|]. simpl in *.
    destruct (scan minscore lines initial) as [st|e st] eqn:Hs.
    2:{ intros H. exfalso. revert H.
        apply (scan_raise_console _ _ _ _ _ Hs), not_elem_of_nil. }
    intros Hw. apply summarize_warns in Hw.
    2:{ apply (scan_console _ _ _ _ Hs), not_elem_of_nil. }
    destruct (scan_error_read _ _ _ _ Hs) as [_ Hiff]; [simpl; lia|].
    apply Hiff in Hw. destruct (last lines) as [raw|] eqn:Hl; [|discriminate].
    apply last_Some in Hl. destruct Hl as [l' ->].
    exists header, l', raw, st. apply Nat.eqb_eq in Hh. auto. }
  split; [split; [exact Hwarn|] |].
  - intros (header & lines & raw & st & -> & Hh & Hs & Hr).
    rewrite (read_generic_output_scanned _ _ _ _ Hh Hs).
    apply summarize_warns.
    + apply (scan_console _ _ _ _ Hs), not_elem_of_nil.
    + destruct (scan_error_read _ _ _ _ Hs) as [_ Hiff]; [simpl; lia|].
      apply Hiff. now rewrite last_snoc.
  - intros header lines raw -> Hr Hw.
    destruct (Hwarn Hw) as (h' & l' & raw' & st & Heq & _ & _ & Hr').
    injection Heq as _ Heq. apply app_inj_tail in Heq. destruct Heq as [_ <-].
    congruence.
Qed.

(** ** The NORMA scores *)

Lemma mean_nonempty (data : list Q) : data <> [] -> mean data = inr (Qmean data).
Proof. destruct data; [congruence | reflexivity]. Qed.

Lemma extended_None_nonempty {A : Type} (l : list A) : l <> [] -> extended None l = Some l.
Proof. destruct l; [congruence | reflexivity]. Qed.

(** The lists of a taxon after the scan of a whole file. *)
Lemma scan_initial_lists minscore lines st tid :
  scan minscore lines initial = Next st ->
  let reads := of_taxon tid (retained minscore lines) in
  (reads <> [] ->
   all_scores st !! tid = Some (read_shel <$> reads) /\
   all_kmerel st !! tid = Some (read_score <$> reads) /\
   all_length st !! tid = Some (read_length <$> reads)) /\
  (reads = [] ->
   all_scores st !! tid = None /\ all_kmerel st !! tid = None /\
   all_length st !! tid = None).
Proof.
  intros Hs reads. destruct (scan_lists _ _ _ _ tid Hs) as (H1 & H2 & H3).
  unfold initial in H1, H2, H3.
  cbn [all_scores all_kmerel all_length] in H1, H2, H3.
  rewrite lookup_empty in H1. rewrite lookup_empty in H2. rewrite lookup_empty in H3.
  fold reads in H1, H2, H3.
  split.
  - intros Hne. rewrite H1, H2, H3.
    rewrite !extended_None_nonempty; [auto | | |]; now destruct reads.
  - intros Hnil. now rewrite H1, H2, H3, Hnil.
Qed.

(** C8: under the NORMA policy, when the function returns, the score of
    every taxon with at least one retained read is the mean of the shel
    values of the retained reads of the taxon divided by the mean of their
    lengths, times 100 (in exact arithmetic); a taxon without retained reads
    has no score. *)
Theorem C8_normalized_score file minscore evs stat counts out_scores :
  scoring = NORMA ->
  read_generic_output log10 file minscore = (evs, inr (stat, counts, out_scores)) ->
  exists header lines,
    file = Some (header :: lines) /\
    forall tid,
      let reads := of_taxon tid (retained minscore lines) in
      (reads <> [] ->
       out_scores !! tid =
       Some (Qmean (inject_Z <$> (read_shel <$> reads))
             / Qmean (inject_Z <$> (read_length <$> reads)) * 100)%Q) /\
      (reads = [] -> out_scores !! tid = None).
Proof.
  intros Hnorma Hrun.
  apply read_generic_output_inr in Hrun.
  destruct Hrun as (header & lines & st & -> & _ & Hscan & Hsum).
  exists header, lines. split; [reflexivity|]. intros tid reads.
  apply summarize_inr in Hsum.
  destruct Hsum as (_ & _ & _ & _ & _ & _ & _ & _ & _ & Hsel).
  unfold select_scores in Hsel. rewrite Hnorma in Hsel. simpl in Hsel.
  destruct (comprehension _ (all_scores st)) as [e|scores] eqn:Hscores; [discriminate|].
  destruct (comprehension _ (all_length st)) as [e|lengths] eqn:Hlengths; [discriminate|].
  pose proof (comprehension_inr _ _ _ Hscores tid) as Hs.
  pose proof (comprehension_inr _ _ _ Hlengths tid) as Hl.
  pose proof (comprehension_inr _ _ _ Hsel tid) as Ho.
  destruct (scan_initial_lists _ _ _ tid Hscan) as [Hsome Hnone]. fold reads in Hsome, Hnone.
  split.
  - intros Hne. destruct (Hsome Hne) as (E1 & _ & E3).
    rewrite E1 in Hs. rewrite E3 in Hl.
    destruct Hs as (s & Hs & Hs'). destruct Hl as (l & Hl & Hl').
    rewrite Hs' in Ho. destruct Ho as (q & Hq & ->). rewrite Hl' in Hq.
    destruct (Qeq_bool l 0); [discriminate|]. injection Hq as <-.
    unfold mean_int in Hs, Hl.
    rewrite mean_nonempty in Hs by (now destruct reads).
    rewrite mean_nonempty in Hl by (now destruct reads).
    injection Hs as <-. injection Hl as <-. reflexivity.
  - intros Hnil. destruct (Hnone Hnil) as (E1 & _ & _).
    rewrite E1 in Hs. now rewrite Hs in Ho.
Qed.

End WholeFunction.

(** ** The counters *)

Lemma parse_line_length raw_line :
  line_length raw_line =
  match parse raw_line with
  | Malformed _ | BadLength _ => None
  | BadMappings _ n | Unclassified n | Uncaught _ n | Derived n _ _ _ => Some n
  end.
Proof.
  unfold line_length, parse.
  destruct (Py.split Py.TAB (Py.strip raw_line)) as [|c [|l [|t [|n [|m [|x r]]]]]];
    try reflexivity.
  destruct (Py.sum_ints (Py.split "|" n)) as [len|]; [|reflexivity].
  destruct (String.eqb c UNCLASSIFIED); [reflexivity|].
  destruct (count_kmers _ _) as [[]|mappings]; try reflexivity.
  destruct (Counter_total mappings =? 0); reflexivity.
Qed.

Lemma parse_line_unclassified raw_line :
  line_unclassified raw_line =
  match parse raw_line with Unclassified _ => true | _ => false end.
Proof.
  unfold line_unclassified, parse.
  destruct (Py.split Py.TAB (Py.strip raw_line)) as [|c [|l [|t [|n [|m [|x r]]]]]];
    try reflexivity.
  destruct (Py.sum_ints (Py.split "|" n)) as [len|]; [|reflexivity].
  destruct (String.eqb c UNCLASSIFIED); [reflexivity|].
  destruct (count_kmers _ _) as [[]|mappings]; try reflexivity.
  destruct (Counter_total mappings =? 0); reflexivity.
Qed.

Lemma deliver_counters minscore raw_line st st' :
  deliver minscore (parse raw_line) st = Next st' ->
  num_read st' =
    num_read st + match line_length raw_line with Some _ => 1 | None => 0 end /\
  nt_read st' = nt_read st + default 0 (line_length raw_line) /\
  num_uncl st' = num_uncl st + (if line_unclassified raw_line then 1 else 0).
Proof.
  rewrite parse_line_length, parse_line_unclassified.
  destruct (parse raw_line); simpl; try discriminate;
    try (intros [= <-]; simpl; lia).
  destruct (low_score _ _ _); intros [= <-]; simpl; lia.
Qed.

Lemma scan_counters_aux minscore lines st st' :
  scan minscore lines st = Next st' ->
  num_read st' = num_read st + Z.of_nat (length (omap line_length lines)) /\
  nt_read st' = nt_read st + Zsum (omap line_length lines) /\
  num_uncl st' =
    num_uncl st + Z.of_nat (length (filter (fun l => line_unclassified l = true) lines)).
Proof.
  revert st. induction lines as [|raw lines IH]; intros st.
  - intros [= <-]. simpl. lia.
  - rewrite scan_cons.
    destruct (deliver minscore (parse raw) st) as [st1|] eqn:Hd; [|discriminate].
    intros Hscan. destruct (IH _ Hscan) as (H1 & H2 & H3).
    destruct (deliver_counters _ _ _ _ Hd) as (E1 & E2 & E3).
    rewrite H1, H2, H3, E1, E2, E3, filter_cons.
    change (omap line_length (raw :: lines)) with
      (match line_length raw with
       | Some n => n :: omap line_length lines
       | None => omap line_length lines
       end).
    destruct (decide (line_unclassified raw = true)) as [Hu|Hu];
      [|apply not_true_is_false in Hu]; rewrite Hu;
      destruct (line_length raw) as [n|]; simpl; unfold Zsum; simpl; lia.
Qed.

(** X1: when the scan reaches the end of the lines, [num_read] has grown by
    the number of lines that have 5 fields and a length field made of
    integers, [nt_read] by the sum of their lengths and [num_uncl] by the
    number of those whose flag is [UNCLASSIFIED].  A read is counted
    whether it is unclassified, ignored for its low score, retained, or
    dropped because its mappings do not parse. *)
Theorem X1_scan_counters minscore lines st st' :
  scan minscore lines st = Next st' ->
  num_read st' = num_read st + Z.of_nat (length (omap line_length lines)) /\
  nt_read st' = nt_read st + Zsum (omap line_length lines) /\
  num_uncl st' =
    num_uncl st + Z.of_nat (length (filter (fun l => line_unclassified l = true) lines)).
Proof. apply scan_counters_aux. Qed.

Lemma deliver_bounds minscore v st st' :
  deliver minscore v st = Next st' \/ (exists e, deliver minscore v st = Raise e st') ->
  0 <= num_uncl st /\ filt_seqs st + num_uncl st <= num_read st /\
  -1 <= error_read st <= num_read st + 1 ->
  0 <= num_uncl st' /\ filt_seqs st' + num_uncl st' <= num_read st' /\
  -1 <= error_read st' <= num_read st' + 1.
Proof.
  intros [H|[e H]] Hinv; revert H; destruct v; simpl; try discriminate;
    try (intros [= <-]; unfold filt_seqs in *; simpl; lia);
    try (intros [= _ <-]; unfold filt_seqs in *; simpl; lia);
    destruct (low_score _ _ _); try discriminate; intros [= <-].
  - unfold filt_seqs in *; simpl; lia.
  - rewrite filt_seqs_accumulate. unfold filt_seqs in *; simpl; lia.
Qed.

Lemma reachable_bounds minscore st :
  reachable minscore st ->
  0 <= num_uncl st /\ filt_seqs st + num_uncl st <= num_read st /\
  -1 <= error_read st <= num_read st + 1.
Proof.
  induction 1 as [|st raw st' _ IH Hb|st raw e st' _ IH Hb].
  - unfold filt_seqs. simpl. unfold total_length. rewrite map_fold_empty. lia.
  - rewrite loop_body_parse in Hb. apply (deliver_bounds _ _ _ _ (or_introl Hb) IH).
  - rewrite loop_body_parse in Hb.
    apply (deliver_bounds minscore (parse raw) st st'); [right; eauto | exact IH].
Qed.

(** X2: in every state the scan goes through, the number of unclassified
    reads and the number of retained reads are not negative and together
    are at most the number of reads read (so the reads passing the filter
    are at most the reads read minus the unclassified ones, and [num_read]
    is not negative either), and the error marker lies between -1 and
    [num_read + 1].  Nothing of the kind holds of [nt_read]: the length
    field may carry a sign. *)
Theorem X2_counters_bounded minscore st :
  reachable minscore st ->
  0 <= num_uncl st /\ 0 <= filt_seqs st /\ 0 <= num_read st /\
  filt_seqs st <= num_read st - num_uncl st /\
  -1 <= error_read st <= num_read st + 1.
Proof.
  intros Hr. pose proof (reachable_bounds _ _ Hr).
  pose proof (total_length_nonneg (all_scores st)). unfold filt_seqs in *. lia.
Qed.

(** ** The exceptions of the scan *)

Lemma count_kmers_exn maps (c : gmap string Z) e :
  count_kmers maps c = inl e -> e = ValueError \/ e = IndexError.
Proof.
  revert c. induction maps as [|token maps IH]; intros c; simpl; [discriminate|].
  destruct (Py.split ":" token) as [|k [|v r]]; try (intros [= <-]; now right).
  destruct (Py.int v) as [n|]; [apply IH | intros [= <-]; now left].
Qed.

Lemma parse_uncaught raw_line e n :
  parse raw_line = Uncaught e n -> e = IndexError \/ e = ZeroDivisionError.
Proof.
  unfold parse.
  destruct (Py.split Py.TAB (Py.strip raw_line)) as [|c [|l [|t [|m [|x [|y r]]]]]];
    try discriminate.
  destruct (Py.sum_ints (Py.split "|" m)) as [len|]; [|discriminate].
  destruct (String.eqb c UNCLASSIFIED); [discriminate|].
  destruct (count_kmers _ _) as [e'|mappings] eqn:Hk.
  - destruct (count_kmers_exn _ _ _ Hk) as [-> | ->]; [discriminate|].
    intros [= <- _]. now left.
  - destruct (Counter_total mappings =? 0); [|discriminate].
    intros [= <- _]. now right.
Qed.

Lemma scan_raise_exn minscore lines st e st' :
  scan minscore lines st = Raise e st' -> e = IndexError \/ e = ZeroDivisionError.
Proof.
  revert st. induction lines as [|raw lines IH]; intros st; [discriminate|].
  rewrite scan_cons.
  destruct (deliver minscore (parse raw) st) as [st1|e1 st1] eqn:Hd; [apply IH|].
  intros [= <- <-]. destruct (parse raw) eqn:Hp; simpl in Hd; try discriminate.
  - injection Hd as <- _. apply (parse_uncaught _ _ _ Hp).
  - destruct (low_score _ _ _); discriminate.
Qed.

(** ** Means *)

Lemma comprehension_inl {A B : Type} (f : string -> A -> Exn + B) d e :
  comprehension f d = inl e -> exists k v, d !! k = Some v /\ f k v = inl e.
Proof.
  unfold comprehension.
  destruct (omap _ (map_to_list d)) as [|e' l] eqn:Ho; [discriminate|].
  intros [= <-].
  assert (e' ∈ omap (fun kv : string * A =>
            match f kv.1 kv.2 with inl e => Some e | inr _ => None end)
            (map_to_list d)) as Hin by (rewrite Ho; left).
  apply list_elem_of_omap in Hin. destruct Hin as ([k v] & Hkv & Hf).
  apply elem_of_map_to_list in Hkv. exists k, v. split; [assumption|].
  simpl in Hf. destruct (f k v); congruence.
Qed.

Lemma Qsum_inject_Z (l : list Z) : (Qsum (inject_Z <$> l) == inject_Z (Zsum l))%Q.
Proof.
  induction l as [|x l IH]; [reflexivity|].
  change (Qsum (inject_Z <$> x :: l)) with (inject_Z x + Qsum (inject_Z <$> l))%Q.
  change (Zsum (x :: l)) with (x + Zsum l). now rewrite IH, inject_Z_plus.
Qed.

Lemma Qmean_sign (l : list Z) :
  l <> [] ->
  ((Qmean (inject_Z <$> l) == 0)%Q <-> Zsum l = 0) /\
  ((0 < Qmean (inject_Z <$> l))%Q <-> 0 < Zsum l).
Proof.
  intros Hne. unfold Qmean. rewrite length_fmap.
  assert (0 < Z.of_nat (length l)) as Hn by (destruct l; [congruence | simpl; lia]).
  set (n := Z.of_nat (length l)) in *.
  assert (0 < inject_Z n)%Q as Hq
    by (change 0%Q with (inject_Z 0); now rewrite <- Zlt_Qlt).
  assert (~ inject_Z n == 0)%Q as Hq0 by (intros H; rewrite H in Hq; discriminate).
  rewrite Qsum_inject_Z. split.
  - split.
    + intros H.
      assert (inject_Z (Zsum l) == 0)%Q as H0.
      { rewrite <- (Qmult_div_r (inject_Z (Zsum l)) (inject_Z n) Hq0), H.
        apply Qmult_0_r. }
      unfold Qeq in H0. simpl in H0. lia.
    + intros ->. unfold Qdiv. apply Qmult_0_l.
  - split.
    + intros H. rewrite Zlt_Qlt. change (inject_Z 0) with 0%Q.
      rewrite <- (Qmult_div_r (inject_Z (Zsum l)) (inject_Z n) Hq0).
      rewrite <- (Qmult_0_r (inject_Z n)). apply Qmult_lt_l; assumption.
    + intros H. apply Qlt_shift_div_l; [assumption|]. rewrite Qmult_0_l.
      change 0%Q with (inject_Z 0). now rewrite <- Zlt_Qlt.
Qed.

Lemma scan_nonempty_lists minscore lines st tid :
  scan minscore lines initial = Next st ->
  (forall l, all_scores st !! tid = Some l -> l <> []) /\
  (forall l, all_kmerel st !! tid = Some l -> l <> []) /\
  (forall l, all_length st !! tid = Some l -> l <> []).
Proof.
  intros Hs. destruct (scan_initial_lists _ _ _ tid Hs) as [Hsome Hnone].
  destruct (of_taxon tid (retained minscore lines)) as [|r rs] eqn:Hr.
  - destruct (Hnone eq_refl) as (-> & -> & ->). repeat split; discriminate.
  - destruct Hsome as (-> & -> & ->); [discriminate|].
    repeat split; intros l [= <-]; discriminate.
Qed.

Lemma retained_filt_seqs minscore lines st :
  scan minscore lines initial = Next st ->
  filt_seqs st = Z.of_nat (length (retained minscore lines)).
Proof.
  intros Hs. rewrite (scan_filt_seqs _ _ _ _ Hs). unfold filt_seqs. simpl.
  unfold total_length. rewrite map_fold_empty. lia.
Qed.

(** ** What the function returns *)

Section Returned.

Variable log10 : Q -> Q.

Lemma summarize_inr_stat minscore st evs stat counts out_scores :
  summarize log10 minscore st = (evs, inr (stat, counts, out_scores)) ->
  stat = SampleStats.Build minscore (nt_read st) (all_length st) (all_scores st)
           (all_kmerel st) (num_read st) (num_uncl st) (filt_seqs st).
Proof.
  unfold summarize.
  destruct (num_read st =? 0); [discriminate|].
  destruct (filt_seqs st =? 0); [discriminate|].
  destruct (select_scores log10 st) as [evs' [e|o]]; [discriminate|].
  now intros [= _ <- _ _].
Qed.

(** X3: when the function returns, the counter it returns maps every taxon
    with retained reads to their number and has no other key; in the
    statistics, [seq_filt] is the number of retained reads, [seq_read] the
    number of lines counted as reads, [nt_read] the sum of their lengths
    and [seq_unclas] the number of unclassified ones, with
    [0 < seq_filt <= seq_read - seq_unclas]. *)
Theorem X3_returned_counts file minscore evs stat counts out_scores :
  read_generic_output log10 file minscore = (evs, inr (stat, counts, out_scores)) ->
  exists header lines,
    file = Some (header :: lines) /\
    (forall tid,
        counts !! tid =
        match of_taxon tid (retained minscore lines) with
        | [] => None
        | reads => Some (Z.of_nat (length reads))
        end) /\
    SampleStats.seq_filt stat = Z.of_nat (length (retained minscore lines)) /\
    SampleStats.seq_read stat = Z.of_nat (length (omap line_length lines)) /\
    SampleStats.nt_read stat = Zsum (omap line_length lines) /\
    SampleStats.seq_unclas stat =
      Z.of_nat (length (filter (fun l => line_unclassified l = true) lines)) /\
    0 < SampleStats.seq_filt stat <=
      SampleStats.seq_read stat - SampleStats.seq_unclas stat.
Proof.
  intros Hrun. apply read_generic_output_inr in Hrun.
  destruct Hrun as (header & lines & st & -> & _ & Hscan & Hsum).
  exists header, lines. split; [reflexivity|].
  pose proof (summarize_inr_stat _ _ _ _ _ _ Hsum) as ->.
  apply summarize_inr in Hsum.
  destruct Hsum as (Hn & Hf & _ & _ & _ & _ & _ & _ & Hcounts & _).
  destruct (scan_counters_aux minscore lines initial st Hscan) as (H1 & H2 & H3).
  pose proof (retained_filt_seqs _ _ _ Hscan) as Hfilt.
  simpl in *. split; [|repeat split; try lia].
  - intros tid. rewrite Hcounts.
    destruct (scan_initial_lists _ _ _ tid Hscan) as [Hsome Hnone].
    destruct (of_taxon tid (retained minscore lines)) as [|r rs] eqn:Hr.
    + destruct (Hnone eq_refl) as (-> & _). reflexivity.
    + destruct Hsome as (-> & _); [discriminate|]. simpl. now rewrite length_fmap.
  - assert (reachable minscore st) as Hr
      by (apply (scan_reachable _ _ _ _ (reachable_initial _) Hscan)).
    pose proof (reachable_bounds _ _ Hr). lia.
Qed.

Lemma comprehension_mean {A : Type} (conv : list A -> list Q) (d : gmap string (list A)) :
  (forall k l, d !! k = Some l -> conv l <> []) ->
  exists m,
    comprehension (fun _ l => mean (conv l)) d = inr m /\
    forall k, m !! k = (fun l => Qmean (conv l)) <$> (d !! k).
Proof.
  intros Hne.
  destruct (comprehension_total (fun (_ : string) l => mean (conv l)) d) as [m Hm].
  { intros k l Hl. rewrite (mean_nonempty _ (Hne _ _ Hl)). eauto. }
  exists m. split; [assumption|]. intros k.
  pose proof (comprehension_inr _ _ _ Hm k) as Hk.
  destruct (d !! k) as [l|] eqn:Hl; simpl; [|assumption].
  destruct Hk as (b & Hb & ->). rewrite (mean_nonempty _ (Hne _ _ Hl)) in Hb.
  congruence.
Qed.

Lemma comprehension_cases {A B : Type} (f : string -> A -> Exn + B) d e0 :
  (forall k v, d !! k = Some v -> f k v = inl e0 \/ exists b, f k v = inr b) ->
  ((exists k v, d !! k = Some v /\ f k v = inl e0) -> comprehension f d = inl e0) /\
  ((forall k v, d !! k = Some v -> exists b, f k v = inr b) ->
   exists m, comprehension f d = inr m) /\
  (forall e, comprehension f d = inl e -> e = e0).
Proof.
  intros Hcases. split; [|split; [apply comprehension_total|]].
  - intros (k & v & Hv & Hf). destruct (comprehension f d) as [e|m] eqn:Hc.
    + apply comprehension_inl in Hc. destruct Hc as (k' & v' & Hv' & Hf').
      destruct (Hcases _ _ Hv') as [He|[b Hb]]; congruence.
    + pose proof (comprehension_inr _ _ _ Hc k) as Hk. rewrite Hv in Hk.
      destruct Hk as (b & Hb & _). congruence.
  - intros e Hc. apply comprehension_inl in Hc. destruct Hc as (k & v & Hv & Hf).
    destruct (Hcases _ _ Hv) as [He|[b Hb]]; congruence.
Qed.

(** The lengths of the retained reads of a taxon that has a score. *)
Lemma scan_length_list minscore lines st tid l :
  scan minscore lines initial = Next st ->
  all_length st !! tid = Some l ->
  of_taxon tid (retained minscore lines) <> [] /\
  l = read_length <$> of_taxon tid (retained minscore lines).
Proof.
  intros Hs Hl. destruct (scan_initial_lists _ _ _ tid Hs) as [Hsome Hnone].
  destruct (of_taxon tid (retained minscore lines)) as [|r rs] eqn:Hr.
  - destruct (Hnone eq_refl) as (_ & _ & Hn). congruence.
  - destruct Hsome as (_ & _ & Hn); [discriminate|]. split; [discriminate | congruence].
Qed.

(** The selection under SHEL, KRAKEN and LENGTH. *)
Lemma select_means minscore lines st :
  scan minscore lines initial = Next st ->
  scoring = SHEL \/ scoring = KRAKEN \/ scoring = LENGTH ->
  exists m,
    (select_scores log10 st).2 = inr m /\
    forall tid,
      m !! tid =
      match of_taxon tid (retained minscore lines) with
      | [] => None
      | reads => Some (Qmean (policy_value <$> reads))
      end.
Proof.
  intros Hs Hpol. unfold select_scores, policy_value.
  destruct Hpol as [-> | [-> | ->]]; simpl; unfold mean_int.
  - destruct (comprehension_mean (fmap inject_Z) (all_scores st)) as (m & -> & Hm).
    { intros k l Hl. apply (scan_nonempty_lists _ _ _ k Hs) in Hl. now destruct l. }
    exists m. split; [reflexivity|]. intros tid. rewrite Hm.
    destruct (scan_initial_lists _ _ _ tid Hs) as [Hsome Hnone].
    destruct (of_taxon tid (retained minscore lines)) as [|r rs] eqn:Hr.
    + destruct (Hnone eq_refl) as (-> & _). reflexivity.
    + destruct Hsome as (-> & _); [discriminate|]. simpl.
      now rewrite <- list_fmap_compose.
  - destruct (comprehension_mean (fun l => l) (all_kmerel st)) as (m & -> & Hm).
    { intros k l Hl. now apply (scan_nonempty_lists _ _ _ k Hs) in Hl. }
    exists m. split; [reflexivity|]. intros tid. rewrite Hm.
    destruct (scan_initial_lists _ _ _ tid Hs) as [Hsome Hnone].
    destruct (of_taxon tid (retained minscore lines)) as [|r rs] eqn:Hr.
    + destruct (Hnone eq_refl) as (_ & -> & _). reflexivity.
    + destruct Hsome as (_ & -> & _); [discriminate|]. reflexivity.
  - destruct (comprehension_mean (fmap inject_Z) (all_length st)) as (m & -> & Hm).
    { intros k l Hl. apply (scan_nonempty_lists _ _ _ k Hs) in Hl. now destruct l. }
    exists m. split; [reflexivity|]. intros tid. rewrite Hm.
    destruct (scan_initial_lists _ _ _ tid Hs) as [Hsome Hnone].
    destruct (of_taxon tid (retained minscore lines)) as [|r rs] eqn:Hr.
    + destruct (Hnone eq_refl) as (_ & _ & ->). reflexivity.
    + destruct Hsome as (_ & _ & ->); [discriminate|]. simpl.
      now rewrite <- list_fmap_compose.
Qed.

(** X4: under the policies SHEL, KRAKEN and LENGTH, when the function
    returns, the score of a taxon is the mean over its retained reads of
    shel, of the relative score, or of the length (in exact arithmetic); a
    taxon without retained reads has no score. *)
Theorem X4_mean_policies file minscore evs stat counts out_scores :
  scoring = SHEL \/ scoring = KRAKEN \/ scoring = LENGTH ->
  read_generic_output log10 file minscore = (evs, inr (stat, counts, out_scores)) ->
  exists header lines,
    file = Some (header :: lines) /\
    forall tid,
      let reads := of_taxon tid (retained minscore lines) in
      (reads <> [] -> out_scores !! tid = Some (Qmean (policy_value <$> reads))) /\
      (reads = [] -> out_scores !! tid = None).
Proof.
  intros Hpol Hrun. apply read_generic_output_inr in Hrun.
  destruct Hrun as (header & lines & st & -> & _ & Hs & Hsum).
  exists header, lines. split; [reflexivity|].
  apply summarize_inr in Hsum.
  destruct Hsum as (_ & _ & _ & _ & _ & _ & _ & _ & _ & Hsel).
  destruct (select_means _ _ _ Hs Hpol) as (m & Hm & Hlookup).
  assert (out_scores = m) as -> by congruence.
  intros tid reads. unfold reads. rewrite Hlookup.
  destruct (of_taxon tid (retained minscore lines)); split; congruence.
Qed.

(** The selection under NORMA. *)
Lemma select_norma minscore lines st :
  scan minscore lines initial = Next st ->
  scoring = NORMA ->
  let sel := (select_scores log10 st).2 in
  ((exists tid,
       of_taxon tid (retained minscore lines) <> [] /\
       Zsum (read_length <$> of_taxon tid (retained minscore lines)) = 0) ->
   sel = inl ZeroDivisionError) /\
  ((forall tid,
       of_taxon tid (retained minscore lines) <> [] ->
       Zsum (read_length <$> of_taxon tid (retained minscore lines)) <> 0) ->
   exists m, sel = inr m) /\
  (forall e, sel = inl e -> e = ZeroDivisionError).
Proof.
  intros Hs Hpol sel. unfold sel, select_scores. rewrite Hpol. simpl. unfold mean_int.
  destruct (comprehension_mean (fmap inject_Z) (all_scores st)) as (ms & -> & Hms).
  { intros k l Hl. apply (scan_nonempty_lists _ _ _ k Hs) in Hl. now destruct l. }
  destruct (comprehension_mean (fmap inject_Z) (all_length st)) as (ml & -> & Hml).
  { intros k l Hl. apply (scan_nonempty_lists _ _ _ k Hs) in Hl. now destruct l. }
  set (g := fun (tid : string) (s : Q) =>
              match ml !! tid with
              | Some l => if Qeq_bool l 0 then inl ZeroDivisionError
                          else inr (s / l * 100)%Q
              | None => inl KeyError
              end).
  assert (forall tid s, ms !! tid = Some s ->
            let reads := of_taxon tid (retained minscore lines) in
            reads <> [] /\
            g tid s = if decide (Zsum (read_length <$> reads) = 0)
                      then inl ZeroDivisionError
                      else inr (s / Qmean (inject_Z <$> (read_length <$> reads)) * 100)%Q)
    as Hg.
  { intros tid s Hs' reads. rewrite Hms in Hs'.
    destruct (scan_initial_lists _ _ _ tid Hs) as [Hsome Hnone]. fold reads in Hsome, Hnone.
    destruct (decide (reads = [])) as [Hnil|Hreads].
    { destruct (Hnone Hnil) as (E & _). rewrite E in Hs'. discriminate. }
    split; [assumption|]. destruct (Hsome Hreads) as (_ & _ & E3).
    unfold g. rewrite Hml, E3. simpl.
    assert (read_length <$> reads <> []) as Hl by (now destruct reads).
    destruct (Qmean_sign _ Hl) as [Hz _].
    destruct (decide (Zsum (read_length <$> reads) = 0)) as [H0|H0].
    - apply Hz in H0. apply Qeq_bool_iff in H0. now rewrite H0.
    - destruct (Qeq_bool _ 0) eqn:Hq; [|reflexivity].
      apply Qeq_bool_iff, Hz in Hq. contradiction. }
  destruct (comprehension_cases g ms ZeroDivisionError) as (Hfail & Hok & Honly).
  { intros k v Hv. destruct (Hg k v Hv) as [_ ->]. destruct (decide _); eauto. }
  split; [|split; [|exact Honly]].
  - intros (tid & Hreads & H0). apply Hfail.
    destruct (scan_initial_lists _ _ _ tid Hs) as [Hsome _].
    destruct (Hsome Hreads) as (E1 & _).
    exists tid, (Qmean (inject_Z <$> (read_shel <$> of_taxon tid (retained minscore lines)))).
    assert (ms !! tid =
            Some (Qmean (inject_Z <$> (read_shel <$> of_taxon tid (retained minscore lines)))))
      as Hm by (now rewrite Hms, E1).
    split; [exact Hm|]. destruct (Hg _ _ Hm) as [_ ->].
    now destruct (decide _).
  - intros Hall. apply Hok.
    intros k v Hv. destruct (Hg k v Hv) as [Hreads ->].
    destruct (decide _) as [H0|_]; [|eauto]. now apply Hall in H0.
Qed.

(** X5: under the NORMA policy the function returns nothing when the
    lengths of the retained reads of some taxon sum to zero (the division is
    by a mean length of zero): whenever it returns, the lengths of the
    retained reads of every taxon that has some have a non-zero sum. *)
Theorem X5_norma_zero_mean_length file minscore evs stat counts out_scores :
  scoring = NORMA ->
  read_generic_output log10 file minscore = (evs, inr (stat, counts, out_scores)) ->
  exists header lines,
    file = Some (header :: lines) /\
    forall tid,
      of_taxon tid (retained minscore lines) <> [] ->
      Zsum (read_length <$> of_taxon tid (retained minscore lines)) <> 0.
Proof.
  intros Hpol Hrun. apply read_generic_output_inr in Hrun.
  destruct Hrun as (header & lines & st & -> & _ & Hs & Hsum).
  exists header, lines. split; [reflexivity|].
  apply summarize_inr in Hsum.
  destruct Hsum as (_ & _ & _ & _ & _ & _ & _ & _ & _ & Hsel).
  destruct (select_norma _ _ _ Hs Hpol) as (Hfail & _ & _).
  intros tid Hreads Hzero.
  rewrite Hfail in Hsel by eauto. discriminate.
Qed.

(** The selection under LOGLENGTH. *)
Lemma select_loglength minscore lines st :
  scan minscore lines initial = Next st ->
  scoring = LOGLENGTH ->
  let sel := (select_scores log10 st).2 in
  ((exists tid,
       of_taxon tid (retained minscore lines) <> [] /\
       Zsum (read_length <$> of_taxon tid (retained minscore lines)) <= 0) ->
   sel = inl ValueError) /\
  ((forall tid,
       of_taxon tid (retained minscore lines) <> [] ->
       0 < Zsum (read_length <$> of_taxon tid (retained minscore lines))) ->
   exists m,
     sel = inr m /\
     forall tid,
       m !! tid =
       match of_taxon tid (retained minscore lines) with
       | [] => None
       | reads => Some (log10 (Qmean (inject_Z <$> (read_length <$> reads))))
       end) /\
  (forall e, sel = inl e -> e = ValueError).
Proof.
  intros Hs Hpol sel. unfold sel, select_scores. rewrite Hpol. simpl.
  set (f := fun (_ : string) (l : list Z) =>
              match mean_int l with inl e => inl e | inr m => math_log10 log10 m end).
  assert (forall tid l, all_length st !! tid = Some l ->
            let reads := of_taxon tid (retained minscore lines) in
            reads <> [] /\
            f tid l = if decide (0 < Zsum (read_length <$> reads))
                      then inr (log10 (Qmean (inject_Z <$> (read_length <$> reads))))
                      else inl ValueError) as Hf.
  { intros tid l Hl reads. destruct (scan_length_list _ _ _ _ _ Hs Hl) as [Hreads ->].
    split; [assumption|]. fold reads. unfold f, mean_int.
    assert (read_length <$> reads <> []) as Hl' by (unfold reads; now destruct (of_taxon _ _)).
    rewrite mean_nonempty by (now destruct (read_length <$> reads)).
    unfold math_log10. destruct (Qmean_sign _ Hl') as [_ Hp].
    destruct (decide (0 < Zsum (read_length <$> reads))) as [H0|H0].
    - apply Hp, Qlt_bool_iff in H0. now rewrite H0.
    - destruct (Qlt_bool 0 _) eqn:Hq; [|reflexivity].
      apply Qlt_bool_iff, Hp in Hq. contradiction. }
  destruct (comprehension_cases f (all_length st) ValueError) as (Hfail & Hok & Honly).
  { intros k v Hv. destruct (Hf k v Hv) as [_ ->]. destruct (decide _); eauto. }
  split; [|split; [|exact Honly]].
  - intros (tid & Hreads & H0). apply Hfail.
    destruct (scan_initial_lists _ _ _ tid Hs) as [Hsome _].
    destruct (Hsome Hreads) as (_ & _ & E3).
    exists tid, (read_length <$> of_taxon tid (retained minscore lines)).
    split; [exact E3|]. destruct (Hf _ _ E3) as [_ ->].
    destruct (decide _); [lia | reflexivity].
  - intros Hall. destruct Hok as [m Hm].
    { intros k v Hv. destruct (Hf k v Hv) as [Hreads ->].
      destruct (decide _) as [|H0]; [eauto|]. now apply Hall in Hreads. }
    exists m. split; [exact Hm|]. intros tid.
    pose proof (comprehension_inr _ _ _ Hm tid) as Hk.
    destruct (scan_initial_lists _ _ _ tid Hs) as [Hsome Hnone].
    destruct (of_taxon tid (retained minscore lines)) as [|r rs] eqn:Hr.
    + destruct (Hnone eq_refl) as (_ & _ & E3). now rewrite E3 in Hk.
    + destruct Hsome as (_ & _ & E3); [discriminate|]. rewrite E3 in Hk.
      destruct Hk as (b & Hb & ->). destruct (Hf _ _ E3) as [_ Hfb].
      rewrite Hr in Hfb. rewrite Hfb in Hb.
      destruct (decide (0 < Zsum (read_length <$> r :: rs))); [|discriminate].
      injection Hb as <-. reflexivity.
Qed.

(** X6: under the LOGLENGTH policy, whenever the function returns, the
    lengths of the retained reads of every taxon that has some have a
    positive sum (the logarithm of a mean that is not positive is a math
    domain error) and the score of the taxon is [log10] of the mean length
    of its retained reads; a taxon without retained reads has no score. *)
Theorem X6_loglength file minscore evs stat counts out_scores :
  scoring = LOGLENGTH ->
  read_generic_output log10 file minscore = (evs, inr (stat, counts, out_scores)) ->
  exists header lines,
    file = Some (header :: lines) /\
    forall tid,
      let reads := of_taxon tid (retained minscore lines) in
      (reads <> [] ->
       0 < Zsum (read_length <$> reads) /\
       out_scores !! tid =
       Some (log10 (Qmean (inject_Z <$> (read_length <$> reads))))) /\
      (reads = [] -> out_scores !! tid = None).
Proof.
  intros Hpol Hrun. apply read_generic_output_inr in Hrun.
  destruct Hrun as (header & lines & st & -> & _ & Hs & Hsum).
  exists header, lines. split; [reflexivity|].
  apply summarize_inr in Hsum.
  destruct Hsum as (_ & _ & _ & _ & _ & _ & _ & _ & _ & Hsel).
  destruct (select_loglength _ _ _ Hs Hpol) as (Hfail & Hok & _).
  assert (forall tid,
             of_taxon tid (retained minscore lines) <> [] ->
             0 < Zsum (read_length <$> of_taxon tid (retained minscore lines))) as Hpos.
  { intros tid Hreads.
    destruct (Z_lt_le_dec 0 (Zsum (read_length <$> of_taxon tid (retained minscore lines))))
      as [H|H]; [exact H|].
    rewrite Hfail in Hsel by eauto. discriminate. }
  destruct (Hok Hpos) as (m & Hm & Hlookup).
  assert (out_scores = m) as -> by congruence.
  intros tid reads. unfold reads. rewrite Hlookup. split.
  - intros Hreads. split; [now apply Hpos|].
    destruct (of_taxon tid (retained minscore lines)); congruence.
  - now intros ->.
Qed.

(** X7: the selection of the scores after a scan that reached the end of
    the lines never raises [KeyError] and never raises [StatisticsError],
    whatever the policy: the three dicts have the same keys, so the lookup
    of the mean length of a taxon under NORMA succeeds, and no list in them
    is empty, so no mean is taken of no data. *)
Theorem X7_selection_never_misses minscore lines st :
  scan minscore lines initial = Next st ->
  (select_scores log10 st).2 <> inl KeyError /\
  (select_scores log10 st).2 <> inl StatisticsError.
Proof.
  intros Hs.
  assert (forall e, (select_scores log10 st).2 = inl e ->
                    e = ValueError \/ e = ZeroDivisionError \/ e = UnsupportedScoring)
    as Hexn.
  { intros e Hsel. destruct scoring eqn:Hpol.
    - destruct (select_means _ _ _ Hs (or_introl Hpol)) as (m & Hm & _). congruence.
    - destruct (select_means _ _ _ Hs (or_intror (or_introl Hpol))) as (m & Hm & _).
      congruence.
    - destruct (select_means _ _ _ Hs (or_intror (or_intror Hpol))) as (m & Hm & _).
      congruence.
    - destruct (select_loglength _ _ _ Hs Hpol) as (_ & _ & Honly).
      rewrite (Honly _ Hsel). tauto.
    - destruct (select_norma _ _ _ Hs Hpol) as (_ & _ & Honly).
      rewrite (Honly _ Hsel). tauto.
    - unfold select_scores in Hsel. rewrite Hpol in Hsel. injection Hsel as <-. tauto. }
  split; intros H; destruct (Hexn _ H) as [?|[?|?]]; discriminate.
Qed.

End Returned.

(** ** Whitespace around a line *)

Lemma blank_cons c s : blank (String c s) <-> Py.isspace c = true /\ blank s.
Proof.
  unfold blank. simpl. split.
  - intros H. inversion H. auto.
  - intros [? ?]. now constructor.
Qed.

Lemma lstrip_blank s : blank s -> Py.lstrip s = EmptyString.
Proof.
  induction s as [|c s IH]; [reflexivity|].
  rewrite blank_cons. intros [Hc Hs]. simpl. rewrite Hc. now apply IH.
Qed.

Lemma rstrip_blank s : blank s -> Py.rstrip s = EmptyString.
Proof.
  induction s as [|c s IH]; [reflexivity|].
  rewrite blank_cons. intros [Hc Hs]. simpl. now rewrite (IH Hs), Hc.
Qed.

Lemma lstrip_app_blank pre s : blank pre -> Py.lstrip (pre +:+ s) = Py.lstrip s.
Proof.
  induction pre as [|c pre IH]; [reflexivity|].
  rewrite blank_cons. intros [Hc Hs]. simpl. rewrite Hc. now apply IH.
Qed.

Lemma rstrip_app_blank s post : blank post -> Py.rstrip (s +:+ post) = Py.rstrip s.
Proof.
  intros Hp. induction s as [|c s IH]; simpl.
  - now apply rstrip_blank.
  - now rewrite IH.
Qed.

Lemma lstrip_app s post :
  Py.lstrip (s +:+ post) = Py.lstrip s +:+ post \/
  (Py.lstrip s = EmptyString /\ Py.lstrip (s +:+ post) = Py.lstrip post).
Proof.
  induction s as [|c s IH]; simpl; [now right|].
  destruct (Py.isspace c); [exact IH | now left].
Qed.

Lemma strip_between_blanks pre s post :
  blank pre -> blank post -> Py.strip (pre +:+ s +:+ post) = Py.strip s.
Proof.
  intros Hpre Hpost. unfold Py.strip. rewrite (lstrip_app_blank _ _ Hpre).
  destruct (lstrip_app s post) as [-> | [-> ->]].
  - now apply rstrip_app_blank.
  - now rewrite (lstrip_blank _ Hpost).
Qed.

(** X8: whitespace before and after a line plays no part: the line with
    blanks (spaces, tabs, the newline) added at either end is processed as
    the line itself.  In particular the last line of a file is processed
    the same with and without its newline. *)
Theorem X8_surrounding_whitespace minscore st pre raw_line post :
  blank pre -> blank post ->
  loop_body minscore st (pre +:+ raw_line +:+ post) = loop_body minscore st raw_line.
Proof.
  intros Hpre Hpost. unfold loop_body.
  now rewrite (strip_between_blanks _ _ _ Hpre Hpost).
Qed.

(** ** Splitting and joining *)

Lemma split_nonempty sep s : Py.split sep s <> [].
Proof.
  destruct s as [|c r]; simpl; [discriminate|].
  destruct (Ascii.eqb c sep); [discriminate|]. now destruct (Py.split sep r).
Qed.

Lemma join_cons_cons sep x y l :
  Py.join sep (x :: y :: l) = x +:+ sep +:+ Py.join sep (y :: l).
Proof. reflexivity. Qed.

Lemma join_split sep s : Py.join (String sep EmptyString) (Py.split sep s) = s.
Proof.
  induction s as [|c r IH]; [reflexivity|]. simpl.
  destruct (Ascii.eqb c sep) eqn:Hc.
  - apply Ascii.eqb_eq in Hc. subst c.
    destruct (Py.split sep r) as [|w ws] eqn:Hs; [now apply split_nonempty in Hs|].
    rewrite join_cons_cons, IH. reflexivity.
  - destruct (Py.split sep r) as [|w ws] eqn:Hs; [now apply split_nonempty in Hs|].
    destruct ws as [|w' ws].
    + simpl in *. now rewrite IH.
    + rewrite join_cons_cons in *. rewrite <- IH. reflexivity.
Qed.

Lemma without_cons sep c s :
  without sep (String c s) <-> Ascii.eqb c sep = false /\ without sep s.
Proof.
  unfold without. simpl. split.
  - intros H. inversion H. auto.
  - intros [? ?]. now constructor.
Qed.

Lemma split_without sep s : without sep s -> Py.split sep s = [s].
Proof.
  induction s as [|c r IH]; [reflexivity|].
  rewrite without_cons. intros [Hc Hr]. simpl. now rewrite Hc, (IH Hr).
Qed.

Lemma split_app_sep sep x rest :
  without sep x ->
  Py.split sep (x +:+ String sep rest) = x :: Py.split sep rest.
Proof.
  induction x as [|c x IH]; simpl.
  - intros _. now rewrite Ascii.eqb_refl.
  - rewrite without_cons. intros [Hc Hx]. now rewrite Hc, (IH Hx).
Qed.

Lemma split_join sep l :
  l <> [] -> Forall (without sep) l ->
  Py.split sep (Py.join (String sep EmptyString) l) = l.
Proof.
  intros Hne Hall. induction Hall as [|x l Hx Hl IH]; [congruence|].
  destruct l as [|y l].
  - simpl. now apply split_without.
  - change (Py.join (String sep EmptyString) (x :: y :: l))
      with (x +:+ String sep (Py.join (String sep EmptyString) (y :: l))).
    rewrite (split_app_sep _ _ _ Hx). f_equal. now apply IH.
Qed.

(** X9: splitting on a character and joining with it are inverse: joining
    the fields of any string gives the string back (what the function prints
    after "Found:" is the header line as read), and splitting the join of a
    non-empty list of fields that do not contain the separator gives the
    fields back. *)
Theorem X9_split_join_round_trip sep :
  (forall s, Py.join (String sep EmptyString) (Py.split sep s) = s) /\
  (forall l, l <> [] -> Forall (without sep) l ->
             Py.split sep (Py.join (String sep EmptyString) l) = l).
Proof. split; [apply join_split | apply split_join]. Qed.

Lemma sum_ints_Zsum (segments : list string) (ns : list Z) :
  Forall2 (fun s n => Py.int s = Some n) segments ns ->
  Py.sum_ints segments = Some (Zsum ns).
Proof.
  induction 1 as [|s n segments ns Hs _ IH]; [reflexivity|].
  simpl. now rewrite Hs, IH.
Qed.

(** X10: the length of a read is the sum of the segments of its length
    field: for a line of 5 fields whose length field is made of integer
    literals joined by [|], the read counts with the sum of the integers
    (50|50 counts for 100). *)
Theorem X10_length_is_sum_of_segments raw_line clas label tid maps segments ns :
  Py.split Py.TAB (Py.strip raw_line) =
    [clas; label; tid; Py.join "|" segments; maps] ->
  segments <> [] ->
  Forall (without "|") segments ->
  Forall2 (fun s n => Py.int s = Some n) segments ns ->
  line_length raw_line = Some (Zsum ns).
Proof.
  intros Hsplit Hne Hno Hints. unfold line_length. rewrite Hsplit.
  rewrite (split_join "|" _ Hne Hno). now apply sum_ints_Zsum.
Qed.

(** ** Lines that leave the data alone *)

Lemma same_data_refl st : same_data st st.
Proof. now repeat split. Qed.

Lemma same_data_trans st1 st2 st3 :
  same_data st1 st2 -> same_data st2 st3 -> same_data st1 st3.
Proof.
  intros (A1 & A2 & A3 & A4 & A5 & A6) (B1 & B2 & B3 & B4 & B5 & B6).
  repeat split; congruence.
Qed.

Lemma deliver_same_data minscore v st1 st2 st1' :
  same_data st1 st2 ->
  deliver minscore v st1 = Next st1' ->
  exists st2', deliver minscore v st2 = Next st2' /\ same_data st1' st2'.
Proof.
  intros (A1 & A2 & A3 & A4 & A5 & A6).
  destruct v; simpl; try discriminate;
    try (intros [= <-]; eexists; split; [reflexivity|];
         repeat split; simpl; congruence).
  destruct (low_score _ _ _); intros [= <-]; eexists; (split; [reflexivity|]);
    repeat split; simpl; congruence.
Qed.

Lemma scan_same_data minscore lines st1 st2 st1' :
  same_data st1 st2 ->
  scan minscore lines st1 = Next st1' ->
  exists st2', scan minscore lines st2 = Next st2' /\ same_data st1' st2'.
Proof.
  revert st1 st2. induction lines as [|raw lines IH]; intros st1 st2 Hsame.
  - intros [= <-]. exists st2. now split.
  - rewrite !scan_cons.
    destruct (deliver minscore (parse raw) st1) as [st1''|] eqn:Hd; [|discriminate].
    destruct (deliver_same_data _ _ _ _ _ Hsame Hd) as (st2'' & -> & Hsame').
    now apply IH.
Qed.

(** X11: a line that does not count as a read (it has not 5 fields, or its
    length field is not a sum of integers) changes nothing but the error
    marker and the console: the scan of the file reaches the end with the
    same three dicts and the same counters as the scan of the file without
    that line. *)
Theorem X11_ignored_line_leaves_data minscore lines1 raw_line lines2 st :
  line_length raw_line = None ->
  scan minscore (lines1 ++ raw_line :: lines2) initial = Next st ->
  exists st',
    scan minscore (lines1 ++ lines2) initial = Next st' /\ same_data st st'.
Proof.
  intros Hlen. rewrite !scan_app.
  destruct (scan minscore lines1 initial) as [st1|] eqn:H1; [|discriminate].
  rewrite scan_cons. rewrite parse_line_length in Hlen.
  destruct (parse raw_line) eqn:Hp; try discriminate; simpl;
    apply scan_same_data; now repeat split.
Qed.

(** X12: the threshold decides which reads are retained and nothing else:
    whether the scan reaches the end of the file, and then the numbers of
    reads read, of nucleotides read and of unclassified reads, are the same
    for any two settings of [minscore]; and the reads retained under a
    threshold are a sublist of those retained without one. *)
Theorem X12_threshold_only_filters minscore1 minscore2 lines st1 :
  scan minscore1 lines initial = Next st1 ->
  exists st2,
    scan minscore2 lines initial = Next st2 /\
    num_read st2 = num_read st1 /\ nt_read st2 = nt_read st1 /\
    num_uncl st2 = num_uncl st1 /\
    (minscore2 = None ->
     sublist (retained minscore1 lines) (retained minscore2 lines) /\
     filt_seqs st1 <= filt_seqs st2).
Proof.
  intros H1.
  assert (exists st2, scan minscore2 lines initial = Next st2) as [st2 H2].
  { apply scan_completes_iff. eapply scan_completes_iff. eauto. }
  exists st2. split; [assumption|].
  destruct (scan_counters_aux _ _ _ _ H1) as (A1 & A2 & A3).
  destruct (scan_counters_aux _ _ _ _ H2) as (B1 & B2 & B3).
  repeat split; try congruence.
  - subst minscore2. clear. induction lines as [|raw lines IH]; [constructor|].
    rewrite !retained_cons. unfold retained_read.
    destruct (parse raw); try assumption.
    destruct minscore1 as [T|]; [|now constructor].
    destruct (Qle_bool T (metric shel score)); now constructor.
  - subst minscore2.
    rewrite (retained_filt_seqs _ _ _ H1), (retained_filt_seqs _ _ _ H2).
    assert (sublist (retained minscore1 lines) (retained None lines)) as Hsub.
    { clear. induction lines as [|raw lines IH]; [constructor|].
      rewrite !retained_cons. unfold retained_read.
      destruct (parse raw); try assumption.
      destruct minscore1 as [T|]; [|now constructor].
      destruct (Qle_bool T (metric shel score)); now constructor. }
    apply sublist_length in Hsub. lia.
Qed.

(** ** The selection of the input files *)

Lemma endswith_refl s : endswith s s = true.
Proof. destruct s; cbn [endswith]; now rewrite String.eqb_refl. Qed.

Lemma endswith_app a b suffix : endswith b suffix = true -> endswith (a +:+ b) suffix = true.
Proof.
  intros Hb. induction a as [|c a IH]; [exact Hb|].
  change (endswith (String c (a +:+ b)) suffix = true). cbn [endswith].
  rewrite IH. apply orb_true_r.
Qed.

Lemma endswith_suffix s suffix :
  endswith s suffix = true <-> exists pre, s = pre +:+ suffix.
Proof.
  split.
  - induction s as [|c s IH]; cbn [endswith].
    + rewrite orb_false_r. intros H. apply String.eqb_eq in H. subst. now exists "".
    + intros H. apply orb_true_iff in H. destruct H as [H|H].
      * apply String.eqb_eq in H. subst. now exists "".
      * destruct (IH H) as [pre ->]. now exists (String c pre).
  - intros [pre ->]. apply endswith_app, endswith_refl.
Qed.

Lemma os_path_join_endswith a b suffix :
  endswith b suffix = true -> endswith (os_path_join a b) suffix = true.
Proof.
  intros Hb. unfold os_path_join.
  destruct (startswith b "/"); [exact Hb|].
  destruct (String.eqb a "" || endswith a "/"); repeat apply endswith_app; exact Hb.
Qed.

Lemma elem_of_select_entries dir_name ext names path :
  path ∈ select_entries dir_name ext names <->
  exists name,
    name ∈ names /\ startswith name "." = false /\ endswith name ext = true /\
    path = if String.eqb dir_name "." then name else os_path_join dir_name name.
Proof.
  induction names as [|n names IH]; simpl.
  - split; [intros H; now apply elem_of_nil in H|].
    intros (name & H & _). now apply elem_of_nil in H.
  - destruct (startswith n ".") eqn:Hs; simpl.
    + rewrite IH. split; intros (name & Hin & Hrest).
      * exists name. split; [now right | exact Hrest].
      * apply elem_of_cons in Hin. destruct Hin as [-> | Hin]; [|eauto].
        destruct Hrest as (Hs' & _). congruence.
    + destruct (endswith n ext) eqn:He.
      * rewrite elem_of_cons, IH. split.
        -- intros [-> | (name & Hin & Hrest)].
           ++ exists n. repeat split; try assumption; [now left|].
              now destruct (String.eqb dir_name ".").
           ++ exists name. split; [now right | exact Hrest].
        -- intros (name & Hin & Hs' & He' & ->).
           apply elem_of_cons in Hin. destruct Hin as [-> | Hin].
           ++ left. now destruct (String.eqb dir_name ".").
           ++ right. eauto.
      * rewrite IH. split; intros (name & Hin & Hrest).
        -- exists name. split; [now right | exact Hrest].
        -- apply elem_of_cons in Hin. destruct Hin as [-> | Hin]; [|eauto].
           destruct Hrest as (_ & He' & _). congruence.
Qed.

(** X13: when the directory can be scanned, the list is left sorted and
    holds, once for each entry of the directory whose name does not start
    with a dot and ends with the extension, the name itself for the
    directory "." and the directory joined with the name otherwise; nothing
    of the former contents of the list is kept (the list is cleared before
    the directory is scanned), and every path in it ends with the
    extension. *)
Theorem X13_selected_files scandir dir_name others ext names :
  scandir dir_name = Some names ->
  exists selected,
    select_kraken_inputs scandir (dir_name :: others) ext = Selected selected /\
    Sorted str_le selected /\
    selected ≡ₚ select_entries dir_name ext names /\
    (forall path,
        path ∈ selected <->
        exists name,
          name ∈ names /\ startswith name "." = false /\ endswith name ext = true /\
          path = if String.eqb dir_name "." then name else os_path_join dir_name name) /\
    (forall path, path ∈ selected -> endswith path ext = true).
Proof.
  intros Hscan. unfold select_kraken_inputs. rewrite Hscan. simpl.
  eexists. split; [reflexivity|].
  assert (sort (select_entries dir_name ext names) ≡ₚ select_entries dir_name ext names)
    as Hperm by apply merge_sort_Permutation.
  split; [|split; [exact Hperm|split]].
  - apply (Sorted_merge_sort (fun a b => Is_true (String.leb a b))).
  - intros path. rewrite Hperm. apply elem_of_select_entries.
  - intros path. rewrite Hperm, elem_of_select_entries.
    intros (name & _ & _ & He & ->).
    destruct (String.eqb dir_name "."); [exact He|].
    now apply os_path_join_endswith.
Qed.


(** ** Lines made of fields *)

Lemma strip_line line post :
  Py.strip line = line -> blank post -> Py.strip (line +:+ post) = line.
Proof.
  intros Hline Hpost.
  rewrite <- Hline at 2. apply (strip_between_blanks "" line post); [constructor | exact Hpost].
Qed.

(** X17: reading a line inverts writing it: for five fields without a tab,
    joined by tabs into a line that neither starts nor ends with a blank,
    the line (followed by a newline or any blanks) is never reported as a
    line with a wrong number of fields; when its length field is a sum of
    integers it counts as a read, as an unclassified one exactly when its
    first field is [UNCLASSIFIED]. *)
Theorem X17_fields_are_recovered clas label tid len maps post :
  let line := Py.join (String Py.TAB EmptyString) [clas; label; tid; len; maps] in
  Forall (without Py.TAB) [clas; label; tid; len; maps] ->
  Py.strip line = line ->
  blank post ->
  Py.split Py.TAB (Py.strip (line +:+ post)) = [clas; label; tid; len; maps] /\
  line_length (line +:+ post) = Py.sum_ints (Py.split "|" len) /\
  line_unclassified (line +:+ post) =
    match Py.sum_ints (Py.split "|" len) with
    | Some _ => String.eqb clas UNCLASSIFIED
    | None => false
    end.
Proof.
  intros line Hfields Hline Hpost.
  assert (Py.split Py.TAB (Py.strip (line +:+ post)) = [clas; label; tid; len; maps]) as Hs.
  { rewrite (strip_line _ _ Hline Hpost). now apply split_join. }
  unfold line_length, line_unclassified. rewrite Hs. repeat split.
Qed.

(** X18: a line whose field of mappings is empty has only four fields once
    it is stripped: it is reported as a line that cannot be parsed, the read
    is not counted and the dicts are left alone (it is not a division by a
    zero total). *)
Theorem X18_empty_mappings_field minscore st clas label tid len post :
  let line := Py.join (String Py.TAB EmptyString) [clas; label; tid; len] in
  Forall (without Py.TAB) [clas; label; tid; len] ->
  Py.strip line = line ->
  blank post ->
  loop_body minscore st (line +:+ String Py.TAB post) =
  Next (ignore_line (ErrorParsingLine line) st).
Proof.
  intros line Hfields Hline Hpost. unfold loop_body.
  assert (blank (String Py.TAB post)) as Hpost'
    by (apply blank_cons; split; [reflexivity | exact Hpost]).
  rewrite (strip_line _ _ Hline Hpost').
  unfold line at 1. now rewrite split_join.
Qed.

End ReadGenericOutput.

(** ** The constructor of [GenericFormat] *)

Lemma column_inr fmt key missing malformed evs n :
  GenericFormat.column fmt key missing malformed = (evs, inr n) -> evs = [].
Proof.
  unfold GenericFormat.column. destruct (fmt !! key) as [v|]; [|discriminate].
  destruct (Py.int v); [|discriminate]. now intros [= <- _].
Qed.

(** An object that the constructor returns has its four other attributes;
    it lacks [typ] exactly when the constructor reported the unknown
    subtype. *)
Lemma init_returns format evs self :
  GenericFormat.init format = (evs, inr self) ->
  is_Some (GenericFormat.tid self) /\ is_Some (GenericFormat.len self) /\
  is_Some (GenericFormat.sco self) /\ is_Some (GenericFormat.unc self) /\
  (GenericFormat.typ self = None <-> evs <> []).
Proof.
  unfold GenericFormat.init.
  destruct (GenericFormat.parse_pairs _ _) as [e|fmt]; [discriminate|].
  destruct (fmt !! "TYP") as [typ_name|]; [|discriminate].
  destruct (GenericFormat.column fmt "TID" _ _) as [out1 [e|n1]] eqn:H1;
    [destruct (GenericType_getitem _); discriminate|].
  destruct (GenericFormat.column fmt "LEN" _ _) as [out2 [e|n2]] eqn:H2;
    [destruct (GenericType_getitem _); discriminate|].
  destruct (GenericFormat.column fmt "SCO" _ _) as [out3 [e|n3]] eqn:H3;
    [destruct (GenericType_getitem _); discriminate|].
  apply column_inr in H1, H2, H3. subst out1 out2 out3.
  destruct (fmt !! "UNC") as [u|]; [|destruct (GenericType_getitem _); discriminate].
  destruct (GenericType_getitem _) as [ty|]; intros [= <- <-]; simpl;
    repeat split; eauto; try discriminate; congruence.
Qed.

(** C1: the constructor does not fail on an unknown subtype name.  For the
    specifier [TYP:XLS,TID:1,LEN:2,SCO:3,UNC:0] it prints the message about
    the unknown file type and returns an object whose [typ] attribute was
    never assigned, the other four being set. *)
Theorem C1_unknown_subtype_is_not_fatal :
  let partial := GenericFormat.Build None (Some 1) (Some 2) (Some 3) (Some "0") in
  GenericFormat.init "TYP:XLS,TID:1,LEN:2,SCO:3,UNC:0" =
    ([FormatStringMalformed "Unknown file TYPe, valid options are CSV or TSV"],
     inr partial) /\
  ~ GenericFormat.populated partial.
Proof.
  split; [vm_compute; reflexivity|].
  intros (Htyp & _). now apply is_Some_None in Htyp.
Qed.

(** The other failures of the constructor do raise. *)
Example init_failures :
  (GenericFormat.init "TID:1,LEN:2,SCO:3,UNC:0").2 = inl KeyError /\
  (GenericFormat.init "TYP:CSV,TID:one,LEN:2,SCO:3,UNC:0").2 = inl ValueError /\
  (GenericFormat.init "TYP:CSV,TID:1,LEN:2,SCO:3").2 = inl KeyError /\
  (GenericFormat.init "TYP:CSV,TID:1,LEN,SCO:3,UNC:0").2 = inl IndexError /\
  (GenericFormat.init "typ:tsv, TID:1, LEN:2, SCO:3, UNC:0").2 = inl KeyError /\
  (GenericFormat.init "TYP:tsv, TID:1, LEN:2, SCO:3, UNC:0").2 =
    inr (GenericFormat.Build (Some TSV) (Some 1) (Some 2) (Some 3) (Some "0")).
Proof. repeat split; vm_compute; reflexivity. Qed.

(** ** Runs of [read_generic_output] *)

(** C2: a classified record whose k-mer counts sum to zero is not skipped:
    the division raises [ZeroDivisionError], which the handlers of the loop
    do not catch, and the function ends there although a well-formed line
    follows. *)
Theorem C2_zero_total_aborts_scan K_MER_SIZE scoring log10 minscore :
  classified_record "U" read_zero "9606" 100 [("9606", 0)] /\
  kmers_total [("9606", 0)] = 0 /\
  read_generic_output "U" K_MER_SIZE scoring log10
    (Some [example_header; read_zero; read_a]) minscore =
  ([], inl ZeroDivisionError).
Proof.
  split; [|split; [reflexivity | vm_compute; reflexivity]].
  exists "C", "r5", "100", "9606:0". repeat split; try (vm_compute; reflexivity).
  discriminate.
Qed.

(** A mapping token without a colon ends the function as well. *)
Example token_without_colon K_MER_SIZE scoring log10 minscore :
  read_generic_output "U" K_MER_SIZE scoring log10
    (Some [example_header; row ["C"; "r1"; "9606"; "100"; "9606"]; read_a]) minscore =
  ([], inl IndexError).
Proof. vm_compute. reflexivity. Qed.

(** C6: once the scan has reached the end of the file, the function raises
    [CannotReadAnySequence] when no read was read and
    [NoSequencePassedFilter] when reads were read and none was retained.  The
    file made of a header of 5 fields and of the line of one unclassified
    read gives 1 read read, 1 unclassified, 0 retained, and raises
    [NoSequencePassedFilter]. *)
Theorem C6_empty_results_raise :
  (forall UNCLASSIFIED K_MER_SIZE scoring log10 header lines minscore st,
      length (Py.split Py.TAB header) = 5%nat ->
      scan UNCLASSIFIED K_MER_SIZE scoring minscore lines initial = Next st ->
      let run := read_generic_output UNCLASSIFIED K_MER_SIZE scoring log10
                   (Some (header :: lines)) minscore in
      (num_read st = 0 -> run.2 = inl CannotReadAnySequence) /\
      (num_read st <> 0 -> filt_seqs st = 0 -> run.2 = inl NoSequencePassedFilter)) /\
  (forall K_MER_SIZE scoring log10 minscore,
      let file := Py.readlines (example_header +:+ unclassified_line) in
      exists st,
        file = [example_header; unclassified_line] /\
        scan "U" K_MER_SIZE scoring minscore (tl file) initial = Next st /\
        num_read st = 1 /\ num_uncl st = 1 /\ filt_seqs st = 0 /\
        read_generic_output "U" K_MER_SIZE scoring log10 (Some file) minscore =
        ([], inl NoSequencePassedFilter)).
Proof.
  split.
  - intros U K sc lg header lines minscore st Hh Hs run. unfold run.
    rewrite (read_generic_output_scanned _ _ _ _ _ _ _ _ Hh Hs).
    apply summarize_raises.
  - intros K sc lg minscore file.
    exists (count_unclassified (count_read 100 initial)).
    repeat split; vm_compute; reflexivity.
Qed.

(** C9: a file whose last data line is a classified record with a zero
    total k-mer count gets no truncated-file warning, although its last
    record is in error: the function ends with an exception raised in the
    loop ([ZeroDivisionError] of that line, unless an earlier line already
    raised) before the test of the error marker is reached. *)
Theorem C9_zero_total_last_line_not_flagged UNCLASSIFIED K_MER_SIZE scoring log10
  header lines raw_line tid length pairs minscore :
  List.length (Py.split Py.TAB header) = 5%nat ->
  classified_record UNCLASSIFIED raw_line tid length pairs ->
  kmers_total pairs = 0 ->
  let run := read_generic_output UNCLASSIFIED K_MER_SIZE scoring log10
               (Some (header :: lines ++ [raw_line])) minscore in
  (exists e, run.2 = inl e /\ (e = ZeroDivisionError \/ e = IndexError)) /\
  ~ warns run.
Proof.
  intros Hh Hrec Htot run. unfold run, read_generic_output. simpl hd. simpl tl.
  apply Nat.eqb_eq in Hh. rewrite Hh. simpl negb. cbv iota.
  destruct (scan UNCLASSIFIED K_MER_SIZE scoring minscore (lines ++ [raw_line]) initial)
    as [st|e st] eqn:Hs.
  - exfalso. rewrite scan_app in Hs.
    destruct (scan UNCLASSIFIED K_MER_SIZE scoring minscore lines initial)
      as [st1|e1 st1]; [|discriminate].
    rewrite scan_cons, (parse_classified _ _ _ _ _ _ Hrec), Htot in Hs.
    simpl in Hs. discriminate.
  - split.
    + exists e. split; [reflexivity|].
      destruct (scan_raise_exn _ _ _ _ _ _ _ _ Hs); auto.
    + unfold warns. simpl. apply (scan_raise_console _ _ _ _ _ _ _ _ Hs).
      apply not_elem_of_nil.
Qed.

(** ** The theorems at concrete inputs *)

(** Under SHEL the two reads of taxon 9606 have metrics 80 and 120: the
    threshold 50 retains both, the threshold 100 the second one only. *)
Lemma C3_threshold_filter_witness :
  (50 <= 100)%Q /\
  exists st,
    scan "U" 35 SHEL (Some 50%Q) [read_a; read_b] initial = Next st /\
    filt_seqs st = 2 /\
    exists st',
      scan "U" 35 SHEL (Some 100%Q) [read_a; read_b] initial = Next st' /\
      filt_seqs st' <= filt_seqs st.
Proof.
  split; [discriminate|].
  destruct (scan "U" 35 SHEL (Some 50%Q) [read_a; read_b] initial) as [st|e st] eqn:Hs;
    [|vm_compute in Hs; discriminate].
  exists st. split; [reflexivity|]. split.
  - vm_compute in Hs. injection Hs as <-. reflexivity.
  - apply (proj2 (C3_threshold_filter "U" 35 SHEL 50%Q) 100%Q [read_a; read_b] st);
      [discriminate | exact Hs].
Defined.

(** The first read of taxon 9606: 45 of its 45 k-mers are its own. *)
Lemma C4_shel_and_relative_score_witness :
  classified_record "U" read_a "9606" 100 [("9606", 45)] /\
  kmers_total [("9606", 45)] <> 0 /\
  loop_body "U" 35 SHEL None initial read_a =
    Next (accumulate "9606" 80 (inject_Z 45 / inject_Z 45 * 100)%Q 100
            (count_read 100 initial)) /\
  (0 <= inject_Z 45 / inject_Z 45 * 100 <= 100)%Q.
Proof.
  assert (classified_record "U" read_a "9606" 100 [("9606", 45)]) as Hrec.
  { exists "C", "r1", "100", "9606:45".
    repeat split; try (vm_compute; reflexivity). discriminate. }
  assert (kmers_total [("9606", 45)] <> 0) as Htot by discriminate.
  split; [exact Hrec|]. split; [exact Htot|].
  destruct (C4_shel_and_relative_score "U" 35 SHEL read_a "9606" 100 [("9606", 45)]
              None initial Hrec Htot) as [Hbody Hbound].
  split; [exact Hbody|].
  apply Hbound. repeat constructor. simpl. lia.
Defined.

(** With the counts 5 and -3 the relative score of taxon 1 is 250. *)
Lemma C4_relative_score_above_100 :
  classified_record "U" read_negative "1" 100 [("1", 5); ("2", -3)] /\
  kmers_total [("1", 5); ("2", -3)] <> 0 /\
  loop_body "U" 35 KRAKEN None initial read_negative =
    Next (accumulate "1" 40 (inject_Z 5 / inject_Z 2 * 100)%Q 100
            (count_read 100 initial)) /\
  ~ (inject_Z 5 / inject_Z 2 * 100 <= 100)%Q.
Proof.
  split; [|split; [discriminate | split; [vm_compute; reflexivity|]]].
  - exists "C", "r4", "100", "1:5 2:-3".
    repeat split; try (vm_compute; reflexivity). discriminate.
  - intros H. vm_compute in H. now apply H.
Defined.

(** A header of 4 fields, and a data line of 3 fields. *)
Lemma C5_header_field_count_witness :
  let lines := [row ["C"; "label"; "taxid"; "length"]; read_a] in
  length (Py.split Py.TAB (hd "" lines)) <> 5%nat /\
  read_generic_output "U" 35 SHEL (fun x => x) (Some lines) None =
    ([OutputFormatNotSupported (Py.split Py.TAB (hd "" lines))],
     inl UnsupportedFileFormat) /\
  loop_body "U" 35 SHEL None initial cut_line =
    Next (ignore_line (ErrorParsingLine (Py.strip cut_line)) initial).
Proof.
  intros lines.
  assert (length (Py.split Py.TAB (hd "" lines)) <> 5%nat) as Hh
    by (vm_compute; discriminate).
  split; [exact Hh|].
  destruct (C5_header_field_count "U" 35 SHEL (fun x => x) lines None Hh) as [Hrun Hline].
  split; [exact Hrun|].
  apply Hline. vm_compute. discriminate.
Defined.

(** A file with a header and no data line: no read is read. *)
Lemma C6_empty_results_raise_witness :
  length (Py.split Py.TAB example_header) = 5%nat /\
  scan "U" 35 SHEL None [] initial = Next initial /\
  (read_generic_output "U" 35 SHEL (fun x => x) (Some [example_header]) None).2 =
    inl CannotReadAnySequence.
Proof.
  assert (length (Py.split Py.TAB example_header) = 5%nat) as Hh by reflexivity.
  split; [exact Hh|]. split; [reflexivity|].
  apply (proj1 C6_empty_results_raise "U" 35 SHEL (fun x => x) example_header []
           None initial Hh eq_refl).
  reflexivity.
Defined.

(** The state after the two reads of taxon 9606. *)
Lemma C7_lists_stay_parallel_witness :
  exists st,
    scan "U" 35 SHEL None [read_a; read_b] initial = Next st /\
    reachable "U" 35 SHEL None st /\ parallel st /\
    all_scores st !! "9606" = Some [80; 120] /\
    all_length st !! "9606" = Some [100; 100].
Proof.
  destruct (scan "U" 35 SHEL None [read_a; read_b] initial) as [st|e st] eqn:Hs;
    [|vm_compute in Hs; discriminate].
  exists st. split; [reflexivity|].
  destruct (C7_lists_stay_parallel "U" 35 SHEL None) as (Hpar & Hreach & _).
  split; [exact (Hreach _ _ Hs)|]. split; [exact (Hpar _ (Hreach _ _ Hs))|].
  vm_compute in Hs. injection Hs as <-. split; reflexivity.
Defined.

(** The two reads of taxon 9606 under NORMA: mean shel 100, mean length
    100. *)
Lemma C8_normalized_score_witness :
  exists evs stat counts out_scores,
    read_generic_output "U" 35 NORMA (fun x => x)
      (Some [example_header; read_a; read_b]) None =
      (evs, inr (stat, counts, out_scores)) /\
    out_scores !! "9606" =
      Some (Qmean [inject_Z 80; inject_Z 120] / Qmean [inject_Z 100; inject_Z 100]
            * 100)%Q /\
    out_scores !! "562" = None.
Proof.
  destruct (read_generic_output "U" 35 NORMA (fun x => x)
              (Some [example_header; read_a; read_b]) None)
    as [evs [e|[[stat counts] out_scores]]] eqn:Hrun;
    [vm_compute in Hrun; discriminate|].
  exists evs, stat, counts, out_scores. split; [reflexivity|].
  destruct (C8_normalized_score "U" 35 NORMA (fun x => x) _ None evs stat counts
              out_scores eq_refl Hrun) as (header & lines & Hfile & Hscores).
  injection Hfile as <- <-.
  split.
  - apply (proj1 (Hscores "9606")). vm_compute. discriminate.
  - apply (proj2 (Hscores "562")). vm_compute. reflexivity.
Defined.

(** A file whose last line is cut, and the same file with one more read. *)
Example truncated_warning_examples :
  warns (read_generic_output "U" 35 SHEL (fun x => x)
           (Some (example_header :: [read_a] ++ [cut_line])) None) /\
  ~ warns (read_generic_output "U" 35 SHEL (fun x => x)
             (Some (example_header :: [read_a; cut_line] ++ [read_b])) None).
Proof.
  split.
  - apply (proj1 (truncated_warning_iff "U" 35 SHEL (fun x => x) _ None)).
    exists example_header, [read_a], cut_line.
    destruct (scan "U" 35 SHEL None ([read_a] ++ [cut_line]) initial) as [st|e st] eqn:Hs;
      [|vm_compute in Hs; discriminate].
    exists st. repeat split; reflexivity.
  - apply (proj2 (truncated_warning_iff "U" 35 SHEL (fun x => x) _ None)
             example_header [read_a; cut_line] read_b eq_refl).
    vm_compute. reflexivity.
Qed.

(** The read of taxon 562, none of whose k-mers maps to taxon 562. *)
Lemma C10_own_taxon_without_kmers_witness :
  classified_record "U" read_absent "562" 75 [("9606", 10); ("0", 5)] /\
  ("562" ∉ [("9606", 10); ("0", 5)].*1) /\
  kmers_total [("9606", 10); ("0", 5)] <> 0 /\
  exists score st',
    (score == 0)%Q /\
    loop_body "U" 35 SHEL None initial read_absent = Next st' /\
    all_scores st' !! "562" = Some [35] /\
    all_kmerel st' !! "562" = Some [score] /\
    all_length st' !! "562" = Some [75].
Proof.
  assert (classified_record "U" read_absent "562" 75 [("9606", 10); ("0", 5)]) as Hrec.
  { exists "C", "r3", "75", "9606:10 0:5".
    repeat split; try (vm_compute; reflexivity). discriminate. }
  assert ("562" ∉ [("9606", 10); ("0", 5)].*1) as Habs.
  { simpl. rewrite !not_elem_of_cons. repeat split; try discriminate.
    apply not_elem_of_nil. }
  assert (kmers_total [("9606", 10); ("0", 5)] <> 0) as Htot by discriminate.
  split; [exact Hrec|]. split; [exact Habs|]. split; [exact Htot|].
  destruct (C10_own_taxon_without_kmers "U" 35 SHEL read_absent "562" 75 _ None initial
              Hrec Habs Htot)
    as (score & st' & Hz & Hbody & _ & _ & _ & Hkeep & _).
  exists score, st'. split; [exact Hz|]. split; [exact Hbody|].
  destruct (Hkeep I) as (_ & H1 & H2 & H3). auto.
Defined.

(** A read of taxon 9606, then a classified read whose only k-mer count is 0. *)
Lemma C9_zero_total_last_line_not_flagged_witness :
  read_generic_output "U" 35 SHEL (fun x => x)
    (Some (example_header :: [read_a] ++ [read_zero])) None =
    ([], inl ZeroDivisionError) /\
  ~ warns (read_generic_output "U" 35 SHEL (fun x => x)
             (Some (example_header :: [read_a] ++ [read_zero])) None).
Proof.
  split; [vm_compute; reflexivity|].
  apply (C9_zero_total_last_line_not_flagged "U" 35 SHEL (fun x => x) example_header
           [read_a] read_zero "9606" 100 [("9606", 0)] None).
  - reflexivity.
  - exists "C", "r5", "100", "9606:0". repeat split; try (vm_compute; reflexivity).
    discriminate.
  - reflexivity.
Defined.

(** ** More on the constructor of [GenericFormat] *)

Lemma column_value fmt key missing malformed evs n :
  GenericFormat.column fmt key missing malformed = (evs, inr n) ->
  fmt !! key ≫= Py.int = Some n.
Proof.
  unfold GenericFormat.column. destruct (fmt !! key) as [v|]; [|discriminate].
  simpl. destruct (Py.int v); [|discriminate]. now intros [= _ <-].
Qed.

(** X14: an object that the constructor returns has its attributes [tid],
    [len] and [sco] set to the integers that [TID], [LEN] and [SCO] have in
    the specifier and [unc] to the string of [UNC]; [typ] is the subtype
    named (in any case) by [TYP] and is missing when there is no such
    subtype.  The object is fully populated exactly when nothing was
    printed. *)
Theorem X14_constructed_descriptor format evs self :
  GenericFormat.init format = (evs, inr self) ->
  exists fmt,
    GenericFormat.parse_pairs (Py.strip <$> Py.split "," format) ∅ = inr fmt /\
    is_Some (fmt !! "TYP") /\
    GenericFormat.typ self =
      fmt !! "TYP" ≫= (fun name => GenericType_getitem (Py.upper name)) /\
    GenericFormat.tid self = fmt !! "TID" ≫= Py.int /\
    GenericFormat.len self = fmt !! "LEN" ≫= Py.int /\
    GenericFormat.sco self = fmt !! "SCO" ≫= Py.int /\
    GenericFormat.unc self = fmt !! "UNC" /\
    is_Some (GenericFormat.tid self) /\ is_Some (GenericFormat.len self) /\
    is_Some (GenericFormat.sco self) /\ is_Some (GenericFormat.unc self) /\
    (GenericFormat.populated self <-> evs = []).
Proof.
  unfold GenericFormat.init.
  destruct (GenericFormat.parse_pairs _ _) as [e|fmt]; [discriminate|].
  destruct (fmt !! "TYP") as [typ_name|] eqn:Htyp; [|discriminate].
  destruct (GenericFormat.column fmt "TID" _ _) as [out1 [e|n1]] eqn:H1;
    [destruct (GenericType_getitem _); discriminate|].
  destruct (GenericFormat.column fmt "LEN" _ _) as [out2 [e|n2]] eqn:H2;
    [destruct (GenericType_getitem _); discriminate|].
  destruct (GenericFormat.column fmt "SCO" _ _) as [out3 [e|n3]] eqn:H3;
    [destruct (GenericType_getitem _); discriminate|].
  pose proof (column_value _ _ _ _ _ _ H1) as V1.
  pose proof (column_value _ _ _ _ _ _ H2) as V2.
  pose proof (column_value _ _ _ _ _ _ H3) as V3.
  apply column_inr in H1, H2, H3. subst out1 out2 out3.
  destruct (fmt !! "UNC") as [u|] eqn:Hunc;
    [|destruct (GenericType_getitem _); discriminate].
  intros H. exists fmt. split; [reflexivity|]. split; [eauto|].
  unfold GenericFormat.populated. rewrite V1, V2, V3, Htyp. simpl.
  destruct (GenericType_getitem (Py.upper typ_name)) as [ty|] eqn:Hty;
    injection H as <- <-; simpl; repeat split; eauto; try discriminate.
  intros (Hn & _). now apply is_Some_None in Hn.
Qed.

Lemma without_lstrip c s : without c s -> without c (Py.lstrip s).
Proof.
  induction s as [|a s IH]; [trivial|].
  intros H. simpl. destruct (Py.isspace a); [|exact H].
  apply IH. now apply without_cons in H.
Qed.

Lemma without_rstrip c s : without c s -> without c (Py.rstrip s).
Proof.
  induction s as [|a s IH]; [trivial|].
  intros H. apply without_cons in H. destruct H as [Ha Hs]. simpl.
  destruct (Py.rstrip s) as [|b r] eqn:Hr.
  - destruct (Py.isspace a); [constructor|]. apply without_cons. split; [exact Ha | constructor].
  - apply without_cons. split; [exact Ha | now apply IH].
Qed.

Lemma parse_pairs_exn blocks fmt e :
  GenericFormat.parse_pairs blocks fmt = inl e -> e = IndexError.
Proof.
  revert fmt. induction blocks as [|b blocks IH]; intros fmt; simpl; [discriminate|].
  destruct (Py.split ":" b) as [|k [|v r]]; try (now intros [= <-]). apply IH.
Qed.

Lemma parse_pairs_inr blocks fmt fmt' :
  GenericFormat.parse_pairs blocks fmt = inr fmt' ->
  Forall (fun b => (2 <= length (Py.split ":" b))%nat) blocks.
Proof.
  revert fmt. induction blocks as [|b blocks IH]; intros fmt; simpl; [constructor|].
  destruct (Py.split ":" b) as [|k [|v r]] eqn:Hs; try discriminate.
  intros H. constructor; [rewrite Hs; simpl; lia | eapply IH; eauto].
Qed.

(** X15: a specifier with a block that has no colon (the empty specifier, a
    trailing comma, a key without value) makes the constructor raise
    [IndexError] before any test of the keys: nothing is printed. *)
Theorem X15_block_without_colon format :
  Exists (without ":") (Py.split "," format) ->
  GenericFormat.init format = ([], inl IndexError).
Proof.
  intros Hex. unfold GenericFormat.init.
  destruct (GenericFormat.parse_pairs _ _) as [e|fmt] eqn:Hp.
  - now rewrite (parse_pairs_exn _ _ _ Hp).
  - exfalso. apply parse_pairs_inr in Hp.
    apply Exists_exists in Hex. destruct Hex as (b & Hin & Hb).
    rewrite Forall_forall in Hp.
    assert (Py.strip b ∈ Py.strip <$> Py.split "," format) as Hin'
      by (now apply list_elem_of_fmap_2).
    apply Hp in Hin'.
    rewrite split_without in Hin'; [simpl in Hin'; lia|].
    unfold Py.strip. now apply without_rstrip, without_lstrip.
Qed.

Lemma parse_pairs_app blocks1 blocks2 fmt :
  GenericFormat.parse_pairs (blocks1 ++ blocks2) fmt =
  match GenericFormat.parse_pairs blocks1 fmt with
  | inr fmt1 => GenericFormat.parse_pairs blocks2 fmt1
  | inl e => inl e
  end.
Proof.
  revert fmt. induction blocks1 as [|b blocks1 IH]; intros fmt; simpl; [reflexivity|].
  destruct (Py.split ":" b) as [|k [|v r]]; try reflexivity. apply IH.
Qed.

Lemma parse_pairs_other_keys blocks fmt fmt' key :
  GenericFormat.parse_pairs blocks fmt = inr fmt' ->
  Forall (fun b => Py.strip (hd "" (Py.split ":" b)) <> key) blocks ->
  fmt' !! key = fmt !! key.
Proof.
  revert fmt. induction blocks as [|b blocks IH]; intros fmt; simpl.
  - now intros [= <-].
  - destruct (Py.split ":" b) as [|k [|v r]] eqn:Hs; try discriminate.
    intros Hp Hall. inversion Hall as [|? ? Hb Hrest]; subst.
    rewrite (IH _ Hp Hrest). rewrite Hs in Hb. simpl in Hb. now apply lookup_insert_ne.
Qed.

(** X16: when a key occurs in several blocks of the specifier, the dict the
    constructor reads holds the value of the last of them: a block
    [key:value] that no later block with the same key follows gives the key
    the (stripped) value. *)
Theorem X16_last_block_wins blocks1 block blocks2 fmt k v rest :
  GenericFormat.parse_pairs (blocks1 ++ block :: blocks2) ∅ = inr fmt ->
  Py.split ":" block = k :: v :: rest ->
  Forall (fun b => Py.strip (hd "" (Py.split ":" b)) <> Py.strip k) blocks2 ->
  fmt !! Py.strip k = Some (Py.strip v).
Proof.
  intros Hp Hs Hlater. rewrite parse_pairs_app in Hp.
  destruct (GenericFormat.parse_pairs blocks1 ∅) as [e|fmt1]; [discriminate|].
  simpl in Hp. rewrite Hs in Hp.
  rewrite (parse_pairs_other_keys _ _ _ _ Hp Hlater). apply lookup_insert_eq.
Qed.

(** ** The further theorems at concrete inputs *)

Lemma X1_scan_counters_witness :
  exists st',
    scan "U" 35 SHEL None [read_a; unclassified_line; cut_line; read_b] initial = Next st' /\
    num_read st' = 3 /\ nt_read st' = 300 /\ num_uncl st' = 1.
Proof.
  destruct (scan "U" 35 SHEL None [read_a; unclassified_line; cut_line; read_b] initial)
    as [st'|e st'] eqn:Hs; [|vm_compute in Hs; discriminate].
  exists st'. split; [reflexivity|].
  destruct (X1_scan_counters "U" 35 SHEL None _ initial st' Hs) as (H1 & H2 & H3).
  rewrite H1, H2, H3. repeat split; vm_compute; reflexivity.
Defined.

Lemma X2_counters_bounded_witness :
  exists st,
    scan "U" 35 SHEL (Some 100%Q) [read_a; unclassified_line; read_b] initial = Next st /\
    0 <= num_uncl st /\ 0 <= filt_seqs st /\ 0 <= num_read st /\
    filt_seqs st <= num_read st - num_uncl st /\
    -1 <= error_read st <= num_read st + 1.
Proof.
  destruct (scan "U" 35 SHEL (Some 100%Q) [read_a; unclassified_line; read_b] initial)
    as [st|e st] eqn:Hs; [|vm_compute in Hs; discriminate].
  exists st. split; [reflexivity|].
  apply (X2_counters_bounded "U" 35 SHEL (Some 100%Q)).
  apply (scan_reachable _ _ _ _ _ _ _ (reachable_initial _ _ _ _) Hs).
Defined.

Lemma X3_returned_counts_witness :
  exists evs stat counts out_scores,
    read_generic_output "U" 35 SHEL (fun x => x)
      (Some [example_header; read_a; unclassified_line; read_b]) None =
      (evs, inr (stat, counts, out_scores)) /\
    counts !! "9606" = Some 2 /\ counts !! "562" = None /\
    SampleStats.seq_filt stat = 2 /\ SampleStats.seq_read stat = 3 /\
    SampleStats.nt_read stat = 300 /\ SampleStats.seq_unclas stat = 1.
Proof.
  destruct (read_generic_output "U" 35 SHEL (fun x => x)
              (Some [example_header; read_a; unclassified_line; read_b]) None)
    as [evs [e|[[stat counts] out_scores]]] eqn:Hrun;
    [vm_compute in Hrun; discriminate|].
  exists evs, stat, counts, out_scores. split; [reflexivity|].
  destruct (X3_returned_counts "U" 35 SHEL (fun x => x) _ None evs stat counts
              out_scores Hrun)
    as (header & lines & Hfile & Hcounts & H1 & H2 & H3 & H4 & _).
  injection Hfile as <- <-.
  rewrite !Hcounts, H1, H2, H3, H4. repeat split; vm_compute; reflexivity.
Defined.

(** Two reads of taxon 9606 with shel 80 and 120 under SHEL. *)
Lemma X4_mean_policies_witness :
  exists evs stat counts out_scores,
    read_generic_output "U" 35 SHEL (fun x => x)
      (Some [example_header; read_a; read_b]) None =
      (evs, inr (stat, counts, out_scores)) /\
    (exists q, out_scores !! "9606" = Some q /\ (q == 100)%Q) /\
    out_scores !! "562" = None.
Proof.
  destruct (read_generic_output "U" 35 SHEL (fun x => x)
              (Some [example_header; read_a; read_b]) None)
    as [evs [e|[[stat counts] out_scores]]] eqn:Hrun;
    [vm_compute in Hrun; discriminate|].
  exists evs, stat, counts, out_scores. split; [reflexivity|].
  destruct (X4_mean_policies "U" 35 SHEL (fun x => x) _ None evs stat counts
              out_scores (or_introl eq_refl) Hrun)
    as (header & lines & Hfile & Hscores).
  injection Hfile as <- <-. split.
  - eexists. split.
    + apply (proj1 (Hscores "9606")). vm_compute. discriminate.
    + vm_compute. reflexivity.
  - apply (proj2 (Hscores "562")). vm_compute. reflexivity.
Defined.

(** The two reads of taxon 9606 under NORMA: the function returns, and the
    lengths sum to 200. *)
Lemma X5_norma_zero_mean_length_witness :
  exists evs stat counts out_scores,
    read_generic_output "U" 35 NORMA (fun x => x)
      (Some [example_header; read_a; read_b]) None =
      (evs, inr (stat, counts, out_scores)) /\
    Zsum (read_length <$> of_taxon "9606" (retained "U" 35 NORMA None [read_a; read_b]))
      <> 0.
Proof.
  destruct (read_generic_output "U" 35 NORMA (fun x => x)
              (Some [example_header; read_a; read_b]) None)
    as [evs [e|[[stat counts] out_scores]]] eqn:Hrun;
    [vm_compute in Hrun; discriminate|].
  exists evs, stat, counts, out_scores. split; [reflexivity|].
  destruct (X5_norma_zero_mean_length "U" 35 NORMA (fun x => x) _ None evs stat counts
              out_scores eq_refl Hrun)
    as (header & lines & Hfile & Hlengths).
  injection Hfile as <- <-.
  apply Hlengths. vm_compute. discriminate.
Defined.

(** The two reads of taxon 9606 under LOGLENGTH, with the identity in the
    place of the logarithm. *)
Lemma X6_loglength_witness :
  exists evs stat counts out_scores,
    read_generic_output "U" 35 LOGLENGTH (fun x => x)
      (Some [example_header; read_a; read_b]) None =
      (evs, inr (stat, counts, out_scores)) /\
    (exists q, out_scores !! "9606" = Some q /\ (q == 100)%Q) /\
    out_scores !! "562" = None.
Proof.
  destruct (read_generic_output "U" 35 LOGLENGTH (fun x => x)
              (Some [example_header; read_a; read_b]) None)
    as [evs [e|[[stat counts] out_scores]]] eqn:Hrun;
    [vm_compute in Hrun; discriminate|].
  exists evs, stat, counts, out_scores. split; [reflexivity|].
  destruct (X6_loglength "U" 35 LOGLENGTH (fun x => x) _ None evs stat counts
              out_scores eq_refl Hrun)
    as (header & lines & Hfile & Hscores).
  injection Hfile as <- <-. split.
  - eexists. split.
    + apply (proj1 (Hscores "9606")). vm_compute. discriminate.
    + vm_compute. reflexivity.
  - apply (proj2 (Hscores "562")). vm_compute. reflexivity.
Defined.

(** The selection after the read of length 0, under NORMA: it raises, and
    what it raises is the division by zero. *)
Lemma X7_selection_never_misses_witness :
  exists st,
    scan "U" 35 NORMA None [read_empty] initial = Next st /\
    (select_scores NORMA (fun x => x) st).2 = inl ZeroDivisionError /\
    (select_scores NORMA (fun x => x) st).2 <> inl KeyError /\
    (select_scores NORMA (fun x => x) st).2 <> inl StatisticsError.
Proof.
  destruct (scan "U" 35 NORMA None [read_empty] initial) as [st|e st] eqn:Hs;
    [|vm_compute in Hs; discriminate].
  exists st. split; [reflexivity|]. split.
  - vm_compute in Hs. injection Hs as <-. vm_compute. reflexivity.
  - exact (X7_selection_never_misses "U" 35 NORMA (fun x => x) None [read_empty] st Hs).
Defined.

Lemma X8_surrounding_whitespace_witness :
  loop_body "U" 35 SHEL None initial ("  " +:+ read_a +:+ String Py.LF "") =
  loop_body "U" 35 SHEL None initial read_a.
Proof.
  apply X8_surrounding_whitespace; repeat constructor.
Defined.

Lemma X9_split_join_round_trip_witness :
  Py.split "|" (Py.join "|" ["50"; "50"; "25"]) = ["50"; "50"; "25"].
Proof.
  apply (proj2 (X9_split_join_round_trip "|")); [discriminate|].
  repeat constructor.
Defined.

Lemma X10_length_is_sum_of_segments_witness :
  line_length read_b = Some (Zsum [50; 50]).
Proof.
  apply (X10_length_is_sum_of_segments read_b "C" "r2" "9606" "9606:80 |:| 9606:5"
           ["50"; "50"] [50; 50]).
  - vm_compute. reflexivity.
  - discriminate.
  - repeat constructor.
  - repeat constructor.
Defined.

Lemma X11_ignored_line_leaves_data_witness :
  exists st st',
    scan "U" 35 SHEL None ([read_a] ++ cut_line :: [read_b]) initial = Next st /\
    scan "U" 35 SHEL None ([read_a] ++ [read_b]) initial = Next st' /\
    same_data st st'.
Proof.
  destruct (scan "U" 35 SHEL None ([read_a] ++ cut_line :: [read_b]) initial)
    as [st|e st] eqn:Hs; [|vm_compute in Hs; discriminate].
  destruct (X11_ignored_line_leaves_data "U" 35 SHEL None [read_a] cut_line [read_b] st)
    as (st' & Hs' & Hsame); [vm_compute; reflexivity | exact Hs |].
  exists st, st'. auto.
Defined.

Lemma X12_threshold_only_filters_witness :
  exists st1 st2,
    scan "U" 35 SHEL (Some 100%Q) [read_a; unclassified_line; read_b] initial = Next st1 /\
    scan "U" 35 SHEL None [read_a; unclassified_line; read_b] initial = Next st2 /\
    num_read st2 = num_read st1 /\ filt_seqs st1 <= filt_seqs st2.
Proof.
  destruct (scan "U" 35 SHEL (Some 100%Q) [read_a; unclassified_line; read_b] initial)
    as [st1|e st1] eqn:Hs; [|vm_compute in Hs; discriminate].
  destruct (X12_threshold_only_filters "U" 35 SHEL (Some 100%Q) None _ st1 Hs)
    as (st2 & Hs2 & Hn & _ & _ & Hsub).
  exists st1, st2. repeat split; try assumption. exact (proj2 (Hsub eq_refl)).
Defined.

Lemma X13_selected_files_witness :
  select_kraken_inputs example_scandir ["samples"; "old.krk"] ".krk" =
    Selected ["samples/a.krk"; "samples/b.krk"] /\
  Sorted str_le ["samples/a.krk"; "samples/b.krk"].
Proof.
  destruct (X13_selected_files example_scandir "samples" ["old.krk"] ".krk"
              ["b.krk"; ".hidden.krk"; "a.krk"; "notes.txt"] eq_refl)
    as (selected & Hsel & Hsorted & _).
  assert (selected = ["samples/a.krk"; "samples/b.krk"]) as ->.
  { vm_compute in Hsel. now injection Hsel as <-. }
  split; [vm_compute; reflexivity | exact Hsorted].
Defined.


Lemma X14_constructed_descriptor_witness :
  exists evs self,
    GenericFormat.init "TYP:tsv, TID:1, LEN:2, SCO:3, UNC:0" = (evs, inr self) /\
    GenericFormat.populated self /\ evs = [].
Proof.
  destruct (GenericFormat.init "TYP:tsv, TID:1, LEN:2, SCO:3, UNC:0")
    as [evs [e|self]] eqn:Hinit; [vm_compute in Hinit; discriminate|].
  exists evs, self. split; [reflexivity|].
  destruct (X14_constructed_descriptor _ _ _ Hinit)
    as (fmt & _ & _ & _ & _ & _ & _ & _ & _ & _ & _ & _ & Hpop).
  assert (evs = []) as Hevs by (vm_compute in Hinit; now injection Hinit as <- _).
  split; [now apply Hpop | exact Hevs].
Defined.

Lemma X15_block_without_colon_witness :
  GenericFormat.init "TYP:CSV,TID:1," = ([], inl IndexError).
Proof.
  apply X15_block_without_colon.
  change (Exists (without ":") ["TYP:CSV"; "TID:1"; ""]).
  do 2 apply Exists_cons_tl. apply Exists_cons_hd. constructor.
Defined.

Lemma X16_last_block_wins_witness :
  exists fmt,
    GenericFormat.parse_pairs (["TID:1"] ++ "TID: 7" :: ["LEN:2"]) ∅ = inr fmt /\
    fmt !! "TID" = Some "7".
Proof.
  destruct (GenericFormat.parse_pairs (["TID:1"] ++ "TID: 7" :: ["LEN:2"]) ∅)
    as [e|fmt] eqn:Hp; [vm_compute in Hp; discriminate|].
  exists fmt. split; [reflexivity|].
  apply (X16_last_block_wins ["TID:1"] "TID: 7" ["LEN:2"] fmt "TID" " 7" [] Hp eq_refl).
  repeat constructor. vm_compute. discriminate.
Defined.

Lemma X17_fields_are_recovered_witness :
  line_length read_a = Some 100 /\ line_unclassified "U" read_a = false.
Proof.
  destruct (X17_fields_are_recovered "U" "C" "r1" "9606" "100" "9606:45"
              (String Py.LF ""))
    as (_ & Hlen & Hunc); [repeat constructor | vm_compute; reflexivity |
                           repeat constructor |].
  split; [exact Hlen | exact Hunc].
Defined.

Lemma X18_empty_mappings_field_witness :
  loop_body "U" 35 SHEL None initial (row ["C"; "r1"; "9606"; "100"; ""]) =
  Next (ignore_line
          (ErrorParsingLine (Py.join (String Py.TAB "") ["C"; "r1"; "9606"; "100"]))
          initial).
Proof.
  apply (X18_empty_mappings_field "U" 35 SHEL None initial "C" "r1" "9606" "100"
           (String Py.LF "")); [repeat constructor | vm_compute; reflexivity |
                                repeat constructor].
Defined.
